(** * The Foreman orchestrator of unmanic (src/unmanic/libs/foreman.py)

    A shallow embedding of the worker-pool bookkeeping of [Foreman]:
    the pool dictionary [worker_threads], pool reconciliation
    ([init_worker_threads]), the event scheduler, the configuration
    gate, the dispatch loop and the status queries.  Python state is
    threaded explicitly through a record; the calls the Foreman makes on
    its collaborators are recorded in a call log. *)

From Stdlib Require Import List String Ascii Bool Arith ZArith Lia.
From Stdlib Require Decimal DecimalString DecimalNat.
Import ListNotations.
Open Scope string_scope.
Open Scope list_scope.

(** ** Strings and the formatting of worker identifiers *)

Module Fmt.

(** [str(i)] for a non-negative Python int: its decimal digits. *)
Definition dec (i : nat) : string := DecimalString.NilEmpty.string_of_uint (Nat.to_uint i).

Definition dash : ascii := "-"%char.

(** [c] does not occur in [s]. *)
Fixpoint free_of (c : ascii) (s : string) : Prop :=
  match s with
  | EmptyString => True
  | String a r => a <> c /\ free_of c r
  end.

(** ["{}-{}".format(name, i)] *)
Definition worker_id (group_name : string) (i : nat) : string :=
  (group_name ++ "-" ++ dec i)%string.

(** ["{}-Worker-{}".format(name, i + 1)] *)
Definition worker_name (group_name : string) (i : nat) : string :=
  (group_name ++ "-Worker-" ++ dec (i + 1))%string.

End Fmt.

(** ** Python values *)

Module Py.

(** Exceptions that escape a modelled function. *)
Inductive exn := ValueError | KeyError | AttributeError.

Inductive result (A : Type) :=
| Ok (a : A)
| Raise (e : exn).
Arguments Ok {A} a.
Arguments Raise {A} e.

Definition bind {A B} (r : result A) (k : A -> result B) : result B :=
  match r with
  | Ok a => k a
  | Raise e => Raise e
  end.

(** [range(a, b)] *)
Definition range (a b : nat) : list nat := seq a (b - a).

(** Truth value of a string: the empty string is false. *)
Definition truthy_str (s : string) : bool := negb (s =? "").

(** Truth value of [d.get(key)] for a string entry: [None] and [''] are false. *)
Definition truthy_opt_str (o : option string) : bool :=
  match o with
  | Some s => truthy_str s
  | None => false
  end.

(** Truth value of an int or [None]: [None] and [0] are false. *)
Definition truthy_opt_nat (o : option nat) : bool :=
  match o with
  | Some n => negb (Nat.eqb n 0)
  | None => false
  end.

Definition mem_str (s : string) (l : list string) : bool :=
  existsb (String.eqb s) l.

Definition mem_nat (n : nat) (l : list nat) : bool :=
  existsb (Nat.eqb n) l.

(** *** [int(s)] on a string of ASCII characters *)

Definition between (a b n : nat) : bool := Nat.leb a n && Nat.leb n b.

(** The ASCII characters [str.isspace] accepts. *)
Definition is_space (c : ascii) : bool :=
  let n := nat_of_ascii c in
  between 9 13 n || between 28 32 n.

Definition digit_of (c : ascii) : option Z :=
  let n := nat_of_ascii c in
  if between 48 57 n then Some (Z.of_nat (n - 48)) else None.

Fixpoint lstrip (l : list ascii) : list ascii :=
  match l with
  | c :: r => if is_space c then lstrip r else l
  | [] => []
  end.

Definition strip (l : list ascii) : list ascii :=
  rev (lstrip (rev (lstrip l))).

(** Decimal digits, a single underscore allowed between two digits. *)
Fixpoint digits (acc : Z) (after_digit : bool) (l : list ascii) : option Z :=
  match l with
  | [] => if after_digit then Some acc else None
  | c :: r =>
      match digit_of c with
      | Some d => digits (10 * acc + d) true r
      | None =>
          if (Ascii.eqb c "_"%char) && after_digit
          then digits acc false r
          else None
      end
  end.

Definition int (s : string) : result Z :=
  match
    match strip (list_ascii_of_string s) with
    | "-"%char :: r => option_map Z.opp (digits 0 false r)
    | "+"%char :: r => digits 0 false r
    | l => digits 0 false l
    end
  with
  | Some z => Ok z
  | None => Raise ValueError
  end.

End Py.

(** ** Data model *)

Definition Task := nat.

Module EventSchedule.
(** One entry of [worker_group.get_worker_event_schedules()]; a field
    that [.get] does not find is [None]. *)
Record t := make {
  schedule_time : option string;
  repetition : option string;
  schedule_task : option string;
  schedule_worker_count : option nat
}.
End EventSchedule.

Module WorkerGroup.
(** One row of [WorkerGroup.get_all_worker_groups()]. *)
Record t := make {
  id : nat;
  name : string;
  number_of_workers : nat;
  tags : list string;
  worker_event_schedules : list EventSchedule.t
}.

Definition set_number_of_workers (c : nat) (g : t) : t :=
  make (id g) (name g) c (tags g) (worker_event_schedules g).
End WorkerGroup.

Module Worker.
(** Modelled from the spec: the Worker class (unmanic/libs/workers.py) is
    not part of the sources at hand.  The handle carries the identity
    given to its constructor, the flags the Foreman reads ([idle],
    [paused], [is_alive()]), the redundancy request it last received
    ([None]: not redundant, [Some false]: redundant-pending,
    [Some true]: redundant-immediate) and its current task reference,
    absent when idle. *)
Record t := make {
  thread_id : string;
  name : string;
  worker_group_id : nat;
  idle : bool;
  paused : bool;
  is_alive : bool;
  redundant : option bool;
  current_task : option Task
}.

(** Modelled from the spec: [Worker(worker_id, worker_name, worker_group, ...)]
    followed by [start()]: a live, idle handle that is neither paused nor
    redundant. *)
Definition start (worker_id worker_name : string) (worker_group : nat) : t :=
  make worker_id worker_name worker_group true false true None None.

(** Modelled from the spec: [set_redundant(immediate)] only raises the
    redundancy flag in the requested mode; the worker exits on its own. *)
Definition set_redundant (immediate : bool) (w : t) : t :=
  make (thread_id w) (name w) (worker_group_id w) (idle w) (paused w)
       (is_alive w) (Some immediate) (current_task w).

Definition is_paused (w : t) : bool := paused w.

(** Modelled from the spec: [pause()] and [unpause()] set and clear the pause flag. *)
Definition pause (w : t) : t :=
  make (thread_id w) (name w) (worker_group_id w) (idle w) true
       (is_alive w) (redundant w) (current_task w).

Definition unpause (w : t) : t :=
  make (thread_id w) (name w) (worker_group_id w) (idle w) false
       (is_alive w) (redundant w) (current_task w).

(** Modelled from the spec: a handle can accept work when it is idle,
    alive and not paused, and a redundant handle refuses new work. *)
Definition can_accept_work (w : t) : bool :=
  idle w && is_alive w && negb (paused w)
  && match redundant w with None => true | Some _ => false end.

(** Modelled from the spec: [add_work(task)] takes the handle from idle to running. *)
Definition add_work (task : Task) (w : t) : t :=
  make (thread_id w) (name w) (worker_group_id w) false (paused w)
       (is_alive w) (redundant w) (Some task).

(** Modelled from the spec: the point-in-time status snapshot of [get_status()]. *)
Record status := make_status {
  st_id : string;
  st_name : string;
  st_idle : bool;
  st_paused : bool;
  st_current_task : option Task
}.

Definition get_status (w : t) : status :=
  make_status (thread_id w) (name w) (idle w) (paused w) (current_task w).
End Worker.

(** ** The pool dictionary [worker_threads]

    A Python dict keeps its keys in insertion order and holds each key
    once; it is kept as an association list in that order. *)

Module Pool.

Definition t := list (string * Worker.t).

Fixpoint get (k : string) (p : t) : option Worker.t :=
  match p with
  | [] => None
  | (k', w) :: r => if k' =? k then Some w else get k r
  end.

(** [k in d] *)
Definition contains (k : string) (p : t) : bool :=
  match get k p with Some _ => true | None => false end.

Definition keys (p : t) : list string := map fst p.
Definition values (p : t) : list Worker.t := map snd p.

(** A method call that mutates the object stored at [k]. *)
Definition modify (k : string) (f : Worker.t -> Worker.t) (p : t) : t :=
  map (fun kv => if fst kv =? k then (fst kv, f (snd kv)) else kv) p.

(** [d[k] = w] *)
Definition setitem (k : string) (w : Worker.t) (p : t) : t :=
  if contains k p then modify k (fun _ => w) p else p ++ [(k, w)].

(** [del d[k]] *)
Definition delitem (k : string) (p : t) : t :=
  filter (fun kv => negb (fst kv =? k)) p.

End Pool.

(** ** Collaborators *)

Module Messages.
(** Modelled from the spec: the frontend message channel keeps one
    message per id; [put] and [update] insert or replace by id and
    [remove_item] removes by id. *)
Record message := make {
  id : string;
  type : string;
  code : string;
  message_text : string;
  timeout : nat
}.

Definition t := list message.

Definition remove_item (i : string) (q : t) : t :=
  filter (fun m => negb (id m =? i)) q.

Definition update (m : message) (q : t) : t := remove_item (id m) q ++ [m].
Definition put (m : message) (q : t) : t := update m q.

Definition has (i : string) (q : t) : bool := existsb (fun m => id m =? i) q.
End Messages.

Module Pending.
(** The pending-task source, a [queue.Queue] with shutdown support. *)
Record t := make {
  items : list Task;
  is_shutdown : bool
}.

Inductive got := Got (task : Task) (rest : t) | Empty | ShutDown.

(** [get(timeout=15)] with no producer running meanwhile. *)
Definition get (q : t) : got :=
  match items q with
  | task :: r => Got task (make r (is_shutdown q))
  | [] => if is_shutdown q then ShutDown else Empty
  end.

(** [shutdown(immediate=True)] drains the queue. *)
Definition shutdown (immediate : bool) (q : t) : t :=
  make (if immediate then [] else items q) true.
End Pending.

Module Library.
(** One library's entry of [get_current_library_configuration()]. *)
Record config := make {
  enabled_plugins : list (string * list (string * string));
  plugin_flow : list string
}.

(** The dictionary from library id to its plugin configuration. *)
Definition settings := list (nat * config).
End Library.

(** ** The Foreman *)

(** Calls the Foreman makes on its collaborators, in the order made.  A
    call on a worker handle carries the handle as it is when called. *)
Inductive Call :=
| Worker_start (worker_id worker_name : string) (worker_group : nat)
| Worker_set_redundant (worker_id : string) (w : Worker.t) (immediate : bool)
| Worker_pause (worker_id : string)
| Worker_unpause (worker_id : string)
| Worker_add_work (w : Worker.t) (task : Task)
| WorkerGroup_save (group_id : nat) (count : option nat)
| Semaphore_release
| Pending_shutdown (immediate : bool)
| Log (level message : string).

Record CurrentConfig := mkConfig {
  settings : Library.settings;
  settings_hash : string
}.

Record Foreman := mkForeman {
  worker_threads : Pool.t;
  abort_flag : bool;
  idle_workers : nat;
  pendingtasks : Pending.t;
  current_config : CurrentConfig;
  last_schedule_run : option string;
  frontend_messages : Messages.t;
  worker_groups : list WorkerGroup.t;
  calls : list Call
}.

Definition set_worker_threads (p : Pool.t) (f : Foreman) : Foreman :=
  mkForeman p (abort_flag f) (idle_workers f) (pendingtasks f) (current_config f)
            (last_schedule_run f) (frontend_messages f) (worker_groups f) (calls f).

Definition set_abort_flag (b : bool) (f : Foreman) : Foreman :=
  mkForeman (worker_threads f) b (idle_workers f) (pendingtasks f) (current_config f)
            (last_schedule_run f) (frontend_messages f) (worker_groups f) (calls f).

Definition set_idle_workers (n : nat) (f : Foreman) : Foreman :=
  mkForeman (worker_threads f) (abort_flag f) n (pendingtasks f) (current_config f)
            (last_schedule_run f) (frontend_messages f) (worker_groups f) (calls f).

Definition set_pendingtasks (q : Pending.t) (f : Foreman) : Foreman :=
  mkForeman (worker_threads f) (abort_flag f) (idle_workers f) q (current_config f)
            (last_schedule_run f) (frontend_messages f) (worker_groups f) (calls f).

Definition set_current_config (c : CurrentConfig) (f : Foreman) : Foreman :=
  mkForeman (worker_threads f) (abort_flag f) (idle_workers f) (pendingtasks f) c
            (last_schedule_run f) (frontend_messages f) (worker_groups f) (calls f).

Definition set_last_schedule_run (t : option string) (f : Foreman) : Foreman :=
  mkForeman (worker_threads f) (abort_flag f) (idle_workers f) (pendingtasks f)
            (current_config f) t (frontend_messages f) (worker_groups f) (calls f).

Definition set_frontend_messages (q : Messages.t) (f : Foreman) : Foreman :=
  mkForeman (worker_threads f) (abort_flag f) (idle_workers f) (pendingtasks f)
            (current_config f) (last_schedule_run f) q (worker_groups f) (calls f).

Definition set_worker_groups (gs : list WorkerGroup.t) (f : Foreman) : Foreman :=
  mkForeman (worker_threads f) (abort_flag f) (idle_workers f) (pendingtasks f)
            (current_config f) (last_schedule_run f) (frontend_messages f) gs (calls f).

Definition call (c : Call) (f : Foreman) : Foreman :=
  mkForeman (worker_threads f) (abort_flag f) (idle_workers f) (pendingtasks f)
            (current_config f) (last_schedule_run f) (frontend_messages f)
            (worker_groups f) (calls f ++ [c]).

(** The state a fresh Foreman has before [configuration_changed] runs in
    [__init__]. *)
Definition new_foreman (pending : Pending.t) (groups : list WorkerGroup.t) : Foreman :=
  mkForeman [] false 0 pending (mkConfig [] "") None [] groups [].

(** ** Foreman methods *)

Definition opt_is (o : option string) (s : string) : bool :=
  match o with
  | Some x => x =? s
  | None => false
  end.

(** [self.worker_threads[worker_id].set_redundant(immediate=immediate)].
    An absent key would raise KeyError; every call site below checks the
    key (or iterates the keys) first, so that branch is never taken. *)
Definition mark_worker_thread_as_redundant
    (worker_id : string) (immediate : bool) (f : Foreman) : Foreman :=
  match Pool.get worker_id (worker_threads f) with
  | Some w =>
      call (Worker_set_redundant worker_id w immediate)
        (set_worker_threads
           (Pool.modify worker_id (Worker.set_redundant immediate) (worker_threads f)) f)
  | None => f
  end.

Definition stop (f : Foreman) : Foreman :=
  let f := set_abort_flag true f in
  let f := call Semaphore_release (set_idle_workers (S (idle_workers f)) f) in
  let f := call (Pending_shutdown true)
             (set_pendingtasks (Pending.shutdown true (pendingtasks f)) f) in
  let thread_keys := Pool.keys (worker_threads f) in
  fold_left (fun f thread => mark_worker_thread_as_redundant thread false f)
            thread_keys f.

Definition get_total_worker_count (f : Foreman) : nat :=
  fold_left (fun worker_count worker_group =>
               worker_count + WorkerGroup.number_of_workers worker_group)
            (worker_groups f) 0.

Definition prune_dead_threads (f : Foreman) : Foreman :=
  fold_left
    (fun f thread =>
       match Pool.get thread (worker_threads f) with
       | Some w =>
           if negb (Worker.is_alive w)
           then set_worker_threads (Pool.delitem thread (worker_threads f)) f
           else f
       | None => f
       end)
    (Pool.keys (worker_threads f)) f.

Definition start_worker_thread
    (worker_id worker_name : string) (worker_group : nat) (f : Foreman) : Foreman :=
  let thread := Worker.start worker_id worker_name worker_group in
  call (Worker_start worker_id worker_name worker_group)
    (set_worker_threads (Pool.setitem worker_id thread (worker_threads f)) f).

(** The state of [init_worker_threads] while it walks the worker groups. *)
Record Reconcile := mkReconcile {
  foreman : Foreman;
  worker_group_ids : list nat;
  worker_group_names : list string
}.

(** Body of [for i in range(worker_group.get('number_of_workers'))]. *)
Definition create_thread (worker_group : WorkerGroup.t) (r : Reconcile) (i : nat)
  : Reconcile :=
  let worker_id := Fmt.worker_id (WorkerGroup.name worker_group) i in
  let worker_name := Fmt.worker_name (WorkerGroup.name worker_group) i in
  let names := worker_name :: worker_group_names r in
  if negb (Pool.contains worker_id (worker_threads (foreman r)))
  then mkReconcile
         (start_worker_thread worker_id worker_name (WorkerGroup.id worker_group)
                              (foreman r))
         (worker_group_ids r) names
  else mkReconcile (foreman r) (worker_group_ids r) names.

(** Body of [for i in range(worker_group.get('number_of_workers'), 12)]. *)
Definition remove_thread (worker_group : WorkerGroup.t) (f : Foreman) (i : nat)
  : Foreman :=
  let worker_id := Fmt.worker_id (WorkerGroup.name worker_group) i in
  match Pool.get worker_id (worker_threads f) with
  | Some w =>
      let is_idle := Worker.idle w in
      mark_worker_thread_as_redundant worker_id is_idle f
  | None => f
  end.

(** Body of [for worker_group in WorkerGroup.get_all_worker_groups()]. *)
Definition reconcile_group (r : Reconcile) (worker_group : WorkerGroup.t) : Reconcile :=
  let r := mkReconcile (foreman r)
                       (WorkerGroup.id worker_group :: worker_group_ids r)
                       (worker_group_names r) in
  let n := WorkerGroup.number_of_workers worker_group in
  let r := fold_left (create_thread worker_group) (Py.range 0 n) r in
  mkReconcile (fold_left (remove_thread worker_group) (Py.range n 12) (foreman r))
              (worker_group_ids r) (worker_group_names r).

(** Body of the last loop, [for thread in self.worker_threads]. *)
Definition remove_stale (ids : list nat) (names : list string)
    (f : Foreman) (thread : string) : Foreman :=
  match Pool.get thread (worker_threads f) with
  | Some w =>
      let worker_group_id := Worker.worker_group_id w in
      let worker_name := Worker.name w in
      if negb (Py.mem_nat worker_group_id ids) || negb (Py.mem_str worker_name names)
      then
        let is_idle := Worker.idle w in
        mark_worker_thread_as_redundant thread is_idle f
      else f
  | None => f
  end.

Definition init_worker_threads (f : Foreman) : Foreman :=
  let f := prune_dead_threads f in
  let r := fold_left reconcile_group (worker_groups f) (mkReconcile f [] []) in
  fold_left (remove_stale (worker_group_ids r) (worker_group_names r))
            (Pool.keys (worker_threads (foreman r))) (foreman r).

Definition on_worker_config_changed (f : Foreman) : Foreman :=
  init_worker_threads f.

Definition available (w : Worker.t) : bool :=
  Worker.idle w && Worker.is_alive w && negb (Worker.paused w).

Definition fetch_available_worker_ids (f : Foreman) : list string :=
  map Worker.thread_id (filter available (Pool.values (worker_threads f))).

Definition check_for_idle_workers (f : Foreman) : bool :=
  existsb available (Pool.values (worker_threads f)).

(** *** Pause, resume, terminate *)

Definition pause_worker_thread (worker_id : string) (f : Foreman) : bool * Foreman :=
  match Pool.get worker_id (worker_threads f) with
  | None =>
      (false,
       call (Log "warning"
               ("Asked to pause Worker ID '" ++ worker_id ++ "', but this was not found."))
            f)
  | Some w =>
      if negb (Worker.is_paused w)
      then
        let f := call (Log "debug" ("Asked to pause Worker ID '" ++ worker_id ++ "'")) f in
        (true,
         call (Worker_pause worker_id)
              (set_worker_threads
                 (Pool.modify worker_id Worker.pause (worker_threads f)) f))
      else (true, f)
  end.

(** [worker_group_id and handle.worker_group_id != worker_group_id]:
    the handle is outside the requested group. *)
Definition outside_group (worker_group_id : option nat) (w : Worker.t) : bool :=
  match worker_group_id with
  | Some g => Py.truthy_opt_nat worker_group_id
              && negb (Nat.eqb (Worker.worker_group_id w) g)
  | None => false
  end.

Definition for_each_thread
    (op : string -> Foreman -> bool * Foreman)
    (worker_group_id : option nat) (f : Foreman) : bool * Foreman :=
  fold_left
    (fun (acc : bool * Foreman) thread =>
       let '(result, f) := acc in
       match Pool.get thread (worker_threads f) with
       | Some w =>
           if outside_group worker_group_id w then acc
           else
             let '(ok, f) := op thread f in
             (if negb ok then false else result, f)
       | None => acc
       end)
    (Pool.keys (worker_threads f)) (true, f).

Definition pause_all_worker_threads (worker_group_id : option nat) (f : Foreman)
  : bool * Foreman :=
  for_each_thread pause_worker_thread worker_group_id f.

Definition resume_worker_thread (worker_id : string) (f : Foreman) : bool * Foreman :=
  let f := call (Log "debug" ("Asked to resume Worker ID '" ++ worker_id ++ "'")) f in
  match Pool.get worker_id (worker_threads f) with
  | None =>
      (false,
       call (Log "warning"
               ("Asked to resume Worker ID '" ++ worker_id ++ "', but this was not found."))
            f)
  | Some _ =>
      (true,
       call (Worker_unpause worker_id)
            (set_worker_threads
               (Pool.modify worker_id Worker.unpause (worker_threads f)) f))
  end.

Definition resume_all_worker_threads (worker_group_id : option nat) (f : Foreman)
  : bool * Foreman :=
  for_each_thread resume_worker_thread worker_group_id f.

Definition terminate_worker_thread (worker_id : string) (f : Foreman) : bool * Foreman :=
  let f := call (Log "debug" ("Asked to terminate Worker ID '" ++ worker_id ++ "'")) f in
  match Pool.get worker_id (worker_threads f) with
  | None =>
      (false,
       call (Log "warning"
               ("Asked to terminate Worker ID '" ++ worker_id
                ++ "', but this was not found."))
            f)
  | Some _ => (true, mark_worker_thread_as_redundant worker_id false f)
  end.

Definition terminate_all_worker_threads (f : Foreman) : bool * Foreman :=
  for_each_thread terminate_worker_thread None f.

(** *** Backpressure *)

Definition queue_full_message : Messages.message :=
  Messages.make "pendingTaskHaltedPostProcessorQueueFull" "status"
                "pendingTaskHaltedPostProcessorQueueFull" "" 0.

(** [list_processed_tasks] is what the completed-task sink reports. *)
Definition postprocessor_queue_full (list_processed_tasks : list Task) (f : Foreman)
  : bool * Foreman :=
  let limit := get_total_worker_count f + 1 in
  let current_count := List.length list_processed_tasks in
  if Nat.ltb limit current_count
  then
    let f := call (Log "warning"
                     ("There are currently " ++ Fmt.dec current_count
                      ++ " items in the post-processor queue. "
                      ++ "Halting feeding workers until it drops below "
                      ++ Fmt.dec limit ++ "."))
                  f in
    (true, set_frontend_messages
             (Messages.update queue_full_message (frontend_messages f)) f)
  else
    (false, set_frontend_messages
              (Messages.remove_item "pendingTaskHaltedPostProcessorQueueFull"
                                    (frontend_messages f)) f).

(** *** Status queries *)

Definition get_all_worker_status (f : Foreman) : list Worker.status :=
  map Worker.get_status (filter Worker.is_alive (Pool.values (worker_threads f))).

(** Body of [for thread in self.worker_threads]; [result] is [None] for
    the empty dict [{}]. *)
Definition match_status (worker_id : string) (result : option Worker.status)
    (kv : string * Worker.t) : Py.result (option Worker.status) :=
  Py.bind (Py.int worker_id) (fun a =>
  Py.bind (Py.int (fst kv)) (fun b =>
  Py.Ok (if Z.eqb a b then Some (Worker.get_status (snd kv)) else result))).

Definition get_worker_status (worker_id : string) (f : Foreman)
  : Py.result (option Worker.status) :=
  fold_left
    (fun (acc : Py.result (option Worker.status)) kv =>
       Py.bind acc (fun result => match_status worker_id result kv))
    (worker_threads f) (Py.Ok None).

(** *** Event schedules *)

Definition days : list string :=
  ["monday"; "tuesday"; "wednesday"; "thursday"; "friday"; "saturday"; "sunday"].

Definition weekend_days : list string := ["saturday"; "sunday"].

(** [worker_group.set_number_of_workers(worker_count)] then [worker_group.save()]:
    the row of that group in the store takes the new count.  A schedule
    without a count leaves the row as it is. *)
Definition save_number_of_workers
    (worker_group : WorkerGroup.t) (worker_count : option nat) (f : Foreman) : Foreman :=
  let stored :=
    match worker_count with
    | Some c =>
        map (fun g =>
               if Nat.eqb (WorkerGroup.id g) (WorkerGroup.id worker_group)
               then WorkerGroup.set_number_of_workers c g else g)
            (worker_groups f)
    | None => worker_groups f
    end in
  call (WorkerGroup_save (WorkerGroup.id worker_group) worker_count)
       (set_worker_groups stored f).

Definition run_task
    (time_now : string) (task : option string) (worker_count : option nat)
    (worker_group : WorkerGroup.t) (f : Foreman) : Foreman :=
  let worker_group_id := WorkerGroup.id worker_group in
  let f := set_last_schedule_run (Some time_now) f in
  if opt_is task "pause" then
    let f := call (Log "debug" "Running scheduled event - Pause all worker threads") f in
    snd (pause_all_worker_threads (Some worker_group_id) f)
  else if opt_is task "resume" then
    let f := call (Log "debug" "Running scheduled event - Resume all worker threads") f in
    snd (resume_all_worker_threads (Some worker_group_id) f)
  else if opt_is task "count" then
    let shown := match worker_count with Some c => Fmt.dec c | None => "None" end in
    let f := call (Log "debug"
                     ("Running scheduled event - Setting worker count to '"
                      ++ shown ++ "'")) f in
    save_number_of_workers worker_group worker_count f
  else f.

(** Body of [for event_schedule in event_schedules]; the flag is [did_something]. *)
Definition check_event_schedule
    (time_now : string) (day_of_week : nat) (worker_group : WorkerGroup.t)
    (acc : bool * Foreman) (event_schedule : EventSchedule.t) : bool * Foreman :=
  let '(did_something, f) := acc in
  let today := nth day_of_week days "" in
  let schedule_time := EventSchedule.schedule_time event_schedule in
  if negb (Py.truthy_opt_str schedule_time) then acc
  else if negb (opt_is schedule_time time_now) then acc
  else
    let repetition := EventSchedule.repetition event_schedule in
    if negb (Py.truthy_opt_str repetition) then acc
    else
      let fire :=
        (true,
         run_task time_now (EventSchedule.schedule_task event_schedule)
                  (EventSchedule.schedule_worker_count event_schedule)
                  worker_group f) in
      if opt_is repetition "daily" then fire
      else if opt_is repetition "weekday" && negb (Py.mem_str today weekend_days)
      then fire
      else if opt_is repetition "weekend" && Py.mem_str today weekend_days
      then fire
      else if opt_is repetition today then fire
      else acc.

(** [WorkerGroup(group_id=...)]: the group as the store has it now, or
    nothing when it has disappeared. *)
Definition fetch_worker_group (group_id : nat) (f : Foreman) : option WorkerGroup.t :=
  find (fun g => Nat.eqb (WorkerGroup.id g) group_id) (worker_groups f).

Definition manage_event_schedules (time_now : string) (day_of_week : nat) (f : Foreman)
  : Foreman :=
  let '(did_something, f) :=
    fold_left
      (fun (acc : bool * Foreman) wg =>
         match fetch_worker_group (WorkerGroup.id wg) (snd acc) with
         | Some worker_group =>
             fold_left (check_event_schedule time_now day_of_week worker_group)
                       (WorkerGroup.worker_event_schedules worker_group) acc
         | None =>
             (fst acc,
              call (Log "debug"
                      "While iterating through the worker groups, the worker group disappeared")
                   (snd acc))
         end)
      (worker_groups f) (false, f) in
  if did_something then init_worker_threads f else f.

(** ** The configuration gate and the dispatch loop *)

Section Gate.

(** [hashlib.md5(json.dumps(settings, sort_keys=True).encode()).hexdigest()] *)
Variable settings_digest : Library.settings -> string.

Definition save_current_config
    (new_settings : option Library.settings) (new_hash : option string) (f : Foreman)
  : Foreman :=
  let f :=
    match new_settings with
    | Some ((_ :: _) as s) =>
        set_current_config (mkConfig s (settings_hash (current_config f))) f
    | _ => f
    end in
  let f :=
    if Py.truthy_opt_str new_hash
    then set_current_config
           (mkConfig (settings (current_config f))
                     (match new_hash with Some h => h | None => "" end)) f
    else f in
  call (Log "debug" "Updated config. If this is modified, all workers will be paused") f.

(** [current_settings] is what [get_current_library_configuration()] returns. *)
Definition configuration_changed (current_settings : Library.settings) (f : Foreman)
  : bool * Foreman :=
  let current_settings_hash := settings_digest current_settings in
  if current_settings_hash =? settings_hash (current_config f)
  then (false, f)
  else (true, save_current_config (Some current_settings)
                                  (Some current_settings_hash) f).

(** [__init__]: a fresh Foreman takes its first configuration snapshot. *)
Definition init (current_settings : Library.settings)
    (pending : Pending.t) (groups : list WorkerGroup.t) : Foreman :=
  snd (configuration_changed current_settings (new_foreman pending groups)).

Definition settings_changed_message : Messages.message :=
  Messages.make "pluginSettingsChangeWorkersStopped" "warning"
                "pluginSettingsChangeWorkersStopped" "" 0.

(** What the outside world answers during one pass of the loop. *)
Inductive Job := Job_manage_event_schedules | Job_prune_dead_threads.

Record Env := mkEnv {
  due_jobs : list Job;
  time_now : string;
  day_of_week : nat;
  library_configuration : Library.settings;
  incompatible_enabled_plugins : bool;
  within_library_count_limits : bool;
  plugins_messages : Messages.t -> Messages.t;
  limits_messages : Messages.t -> Messages.t
}.

(** Modelled from the spec: [PluginsHandler.get_incompatible_enabled_plugins]
    and [Library.within_library_count_limits] are not part of the sources
    at hand.  Each is handed the frontend message queue and may raise its
    own user-facing message on it, whatever the hash comparison says:
    [incompatible_enabled_plugins] and [within_library_count_limits] are
    their answers, [plugins_messages] and [limits_messages] what they do
    to the queue. *)
Definition validate_worker_config (e : Env) (f : Foreman) : bool * Foreman :=
  let valid := true in
  let f := set_frontend_messages (plugins_messages e (frontend_messages f)) f in
  let valid := if incompatible_enabled_plugins e then false else valid in
  let '(changed, f) := configuration_changed (library_configuration e) f in
  let '(valid, f) :=
    if changed
    then (false,
          set_frontend_messages
            (Messages.put settings_changed_message (frontend_messages f)) f)
    else (valid, f) in
  let f := set_frontend_messages (limits_messages e (frontend_messages f)) f in
  let valid := if negb (within_library_count_limits e) then false else valid in
  (valid, f).

(** [self.scheduler.run_pending()] runs the jobs that are due. *)
Definition run_pending (e : Env) (f : Foreman) : Foreman :=
  fold_left
    (fun f job =>
       match job with
       | Job_manage_event_schedules =>
           manage_event_schedules (time_now e) (day_of_week e) f
       | Job_prune_dead_threads => prune_dead_threads f
       end)
    (due_jobs e) f.

Inductive Outcome := Continue (f : Foreman) | Break (f : Foreman).

(** The [for ... else] that hands the task to the first willing handle. *)
Definition assign_task (task : Task) (f : Foreman) : Foreman :=
  match find (fun kv => Worker.can_accept_work (snd kv)) (worker_threads f) with
  | Some (k, thread) =>
      call (Worker_add_work thread task)
           (set_worker_threads
              (Pool.modify k (Worker.add_work task) (worker_threads f)) f)
  | None => f
  end.

(** From [self.pendingtasks.get(timeout=15)] on. *)
Definition take_task (f : Foreman) : Outcome :=
  match Pending.get (pendingtasks f) with
  | Pending.Empty =>
      Continue (call Semaphore_release (set_idle_workers (S (idle_workers f)) f))
  | Pending.ShutDown => Break f
  | Pending.Got task rest => Continue (assign_task task (set_pendingtasks rest f))
  end.

(** After a successful acquire. *)
Definition have_idle_workers (f : Foreman) : Outcome :=
  if abort_flag f then Break f else take_task f.

(** [self.idle_workers.acquire(timeout=15)] and what follows. *)
Definition acquire_idle_worker (f : Foreman) : Outcome :=
  match idle_workers f with
  | S n => have_idle_workers (set_idle_workers n f)
  | O => Continue f
  end.

(** One pass of the [while] body. *)
Definition loop_body (e : Env) (f : Foreman) : Outcome :=
  let f := run_pending e f in
  let '(valid, f) := validate_worker_config e f in
  if negb valid
  then Continue (snd (pause_all_worker_threads None f))
  else acquire_idle_worker f.

Definition leave (f : Foreman) : Foreman :=
  call (Log "info" "Leaving Foreman Monitor loop...") f.

(** The [while not self.abort_flag.is_set()] loop over the answers of
    successive passes; [None] when the loop is still running after them. *)
Fixpoint monitor_loop (es : list Env) (f : Foreman) : option Foreman :=
  if abort_flag f then Some (leave f)
  else
    match es with
    | [] => None
    | e :: es =>
        match loop_body e f with
        | Continue f => monitor_loop es f
        | Break f => Some (leave f)
        end
    end.

(** [run]: the first answer serves the validation before the loop. *)
Definition run (e0 : Env) (es : list Env) (f : Foreman) : option Foreman :=
  let f := call (Log "info" "Starting Foreman Monitor loop") f in
  let f := init_worker_threads f in
  let '(valid, f) := validate_worker_config e0 f in
  let f := if negb valid then snd (pause_all_worker_threads None f) else f in
  monitor_loop es f.

End Gate.

(** ** The session (src/unmanic/libs/session.py): signing out *)

Module Installation.
(** A row of the Installation table, with the columns the session reads
    and writes; [id] is the primary key [save()] writes by. *)
Record row := make {
  id : nat;
  uuid : string;
  level : Z;
  picture_uri : string;
  name : string;
  email : string;
  created : option Z;
  user_access_token : option string;
  user_refresh_token : option string;
  session_cookies : option string
}.

Definition table := list row.

(** [Installation.get_or_none(uuid=u)] *)
Definition get_or_none (u : string) (db : table) : option row :=
  find (fun r => uuid r =? u) db.

(** [row.save()] *)
Definition save (r : row) (db : table) : table :=
  map (fun r0 => if Nat.eqb (id r0) (id r) then r else r0) db.
End Installation.

Module Session.

(** [self.requests_session]: the Authorization header, when set, and
    the cookie jar. *)
Record requests := mkRequests {
  authorization : option string;
  cookies : list (string * string)
}.

(** The attributes of the session object that signing out touches.
    [created] holds what [time.time()] returned; it is only stored here,
    never computed with.  [level] and the two tokens are assigned by the
    reset before anything reads them. *)
Record t := make {
  picture_uri : string;
  name : string;
  email : string;
  created : option Z;
  uuid : option string;
  session_cookies : option string;
  level : Z;
  user_access_token : option string;
  user_refresh_token : option string;
  requests_session : requests
}.

(** The session object and the Installation table. *)
Definition world := (t * Installation.table)%type.

(** [__store_installation_data(force_save_access_token)]; assigning a
    column on the [None] that [get_or_none] returns raises AttributeError. *)
Definition store_installation_data (force_save_access_token : bool) (w : world)
  : world * Py.result unit :=
  let '(s, db) := w in
  if Py.truthy_opt_str (uuid s) then
    match Installation.get_or_none
            (match uuid s with Some u => u | None => "" end) db with
    | None => (w, Py.Raise Py.AttributeError)
    | Some r =>
        let token :=
          if Py.truthy_opt_str (user_access_token s) || force_save_access_token
          then user_access_token s else Installation.user_access_token r in
        let refresh :=
          if Py.truthy_opt_str (user_refresh_token s) || force_save_access_token
          then user_refresh_token s else Installation.user_refresh_token r in
        let jar :=
          if Py.truthy_opt_str (session_cookies s) || force_save_access_token
          then session_cookies s else Installation.session_cookies r in
        let r' := Installation.make (Installation.id r) (Installation.uuid r)
                    (level s) (picture_uri s) (name s) (email s) (created s)
                    token refresh jar in
        ((s, Installation.save r' db), Py.Ok tt)
    end
  else (w, Py.Ok tt).

(** [__clear_session_auth] *)
Definition clear_session_auth (s : t) : t :=
  make (picture_uri s) (name s) (email s) (created s) (uuid s) (session_cookies s)
       (level s) (user_access_token s) (user_refresh_token s)
       (mkRequests (Some "") []).

(** [__reset_session_installation_data]; [now] is [time.time()]. *)
Definition reset_session_installation_data (now : Z) (w : world)
  : world * Py.result unit :=
  let '(s, db) := w in
  let s := make "" "" "" (Some now) (uuid s) (session_cookies s)
                0%Z None None (requests_session s) in
  match store_installation_data true (s, db) with
  | (w', Py.Ok _) => ((clear_session_auth (fst w'), snd w'), Py.Ok tt)
  | (w', Py.Raise e) => (w', Py.Raise e)
  end.

Definition sign_out (now : Z) (w : world) : world * Py.result bool :=
  match reset_session_installation_data now w with
  | (w', Py.Ok _) => (w', Py.Ok true)
  | (w', Py.Raise e) => (w', Py.Raise e)
  end.

End Session.

(** ** Concrete inputs *)

Module Examples.

(** A readable stand-in for the md5 digest of the JSON dump, to run the
    model on examples: it spells the settings out. *)
Definition spell_setting (kv : string * string) : string :=
  (fst kv ++ "=" ++ snd kv ++ ";")%string.

Definition spell_plugin (p : string * list (string * string)) : string :=
  (fst p ++ "{" ++ String.concat "" (map spell_setting (snd p)) ++ "}")%string.

Definition spell_library (l : nat * Library.config) : string :=
  (Fmt.dec (fst l) ++ "["
   ++ String.concat "" (map spell_plugin (Library.enabled_plugins (snd l)))
   ++ "|" ++ String.concat "," (Library.plugin_flow (snd l)) ++ "]")%string.

Definition spell (s : Library.settings) : string :=
  ("#" ++ String.concat "" (map spell_library s))%string.

(** One library with one enabled plugin. *)
Definition library_a : Library.settings :=
  [(1, Library.make [("encoder", [("crf", "23")])] ["encoder"])].

(** The same library after an edit of the plugin's settings. *)
Definition library_b : Library.settings :=
  [(1, Library.make [("encoder", [("crf", "18")])] ["encoder"])].

Definition no_pending : Pending.t := Pending.make [] false.

Definition nine_daily_pause : EventSchedule.t :=
  EventSchedule.make (Some "09:00") (Some "daily") (Some "pause") None.

Definition nine_daily_count : EventSchedule.t :=
  EventSchedule.make (Some "09:00") (Some "daily") (Some "count") (Some 2).

Definition default_group (n : nat) (schedules : list EventSchedule.t) : WorkerGroup.t :=
  WorkerGroup.make 1 "default" n [] schedules.

(** A Foreman right after start-up on one group ["default"] with [n] workers. *)
Definition started (n : nat) (schedules : list EventSchedule.t) : Foreman :=
  init_worker_threads (init spell library_a no_pending [default_group n schedules]).

(** A pass of the loop in which nothing is due and every check passes. *)
(** A collaborator that raises no message of its own. *)
Definition silent (q : Messages.t) : Messages.t := q.

(** The library-count check clears its own message when it passes. *)
Definition limits_fine (q : Messages.t) : Messages.t :=
  Messages.remove_item "libraryEnabledLimits" q.

Definition quiet_pass : Env :=
  mkEnv [] "08:59" 0 library_a false true silent limits_fine.

(** The schedule tick at 09:00 on a Monday. *)
Definition tick_at_nine (f : Foreman) : Foreman :=
  manage_event_schedules "09:00" 0 f.

Definition is_scheduled_event (c : Call) : bool :=
  match c with
  | Log _ m => String.prefix "Running scheduled event" m
  | _ => false
  end.

(** How many scheduled actions have run so far. *)
Definition scheduled_events_run (f : Foreman) : nat :=
  List.length (filter is_scheduled_event (calls f)).

Definition saves (f : Foreman) : list Call :=
  filter (fun c => match c with WorkerGroup_save _ _ => true | _ => false end)
         (calls f).

Definition is_add_work (c : Call) : bool :=
  match c with Worker_add_work _ _ => true | _ => false end.

End Examples.

Module Examples2.
Import Examples.

(** One paused worker that has signalled idleness, and one queued task. *)
Definition paused_with_task : Foreman :=
  set_idle_workers 1
    (set_pendingtasks (Pending.make [7] false)
       (snd (pause_worker_thread "default-0" (started 1 [])))).

(** The stored snapshot is [library_a]; every library has since failed
    to load, so the current configuration is the empty dictionary. *)
Definition snapshot_of_a : Foreman := init spell library_a no_pending [].

End Examples2.

Module Examples3.
Import Examples.

(** The worker of a one-worker group is busy with task 7 when the count
    is set to 0 and reconciled, which marks it redundant-pending; then
    the count is set back to 1. *)
Definition busy : Foreman := assign_task 7 (started 1 []).

Definition shrunk : Foreman :=
  init_worker_threads (set_worker_groups [default_group 0 []] busy).

Definition regrown : Foreman := set_worker_groups [default_group 1 []] shrunk.

(** Two workers running, and the count lowered to 1. *)
Definition lowered : Foreman := set_worker_groups [default_group 1 []] (started 2 []).

End Examples3.

Module Examples4.
Import Examples.


End Examples4.

Module Examples5.
Import Examples.

Definition worker_0 : Worker.t := Worker.start "default-0" "default-Worker-1" 1.
Definition worker_1 : Worker.t := Worker.start "default-1" "default-Worker-2" 1.

(** The first worker's thread has exited. *)
Definition exited_0 : Worker.t :=
  Worker.make "default-0" "default-Worker-1" 1 true false false (Some true) None.

Definition with_dead : Foreman :=
  set_worker_threads [("default-0", exited_0); ("default-1", worker_1)] (started 2 []).

(** The only group has been deleted from the store. *)
Definition orphaned : Foreman := set_worker_groups [] (started 1 []).

Definition fresh_foreman : Foreman :=
  init spell library_a no_pending [default_group 1 []].

(** A pass during which the plugin settings are found edited. *)
Definition edited_pass : Env :=
  mkEnv [] "08:59" 0 library_b false true silent limits_fine.

Definition two_tasks : Foreman :=
  set_pendingtasks (Pending.make [7; 8] false) (set_idle_workers 1 (started 1 [])).

(** A group whose name is the empty string has the ids "-0" and "-1". *)
Definition unnamed : Foreman :=
  init_worker_threads
    (init spell library_a no_pending [WorkerGroup.make 1 "" 2 [] []]).

Definition signed_in : Session.t :=
  Session.make "avatar.png" "Ada" "ada@example.org" (Some 100%Z) (Some "u-1")
               (Some "jar") 2%Z (Some "token") (Some "refresh")
               (Session.mkRequests (Some "token") [("sid", "1")]).

Definition installation_row : Installation.row :=
  Installation.make 1 "u-1" 2%Z "avatar.png" "Ada" "ada@example.org" (Some 100%Z)
                    (Some "token") (Some "refresh") (Some "jar").

End Examples5.


Module Examples6.
Import Examples Examples5.

(** One idle worker, and the count of its group lowered to 0. *)
Definition to_shrink : Foreman := set_worker_groups [default_group 0 []] (started 1 []).

(** What the monitor loop does meanwhile: it hands task 7 to a worker. *)
Definition dispatch_7 (f : Foreman) : Foreman := assign_task 7 f.

(** The worker with task 7. *)
Definition busy_0 : Worker.t := Worker.add_work 7 worker_0.

End Examples6.

(** ** Reconciliation seen from one key of the pool

    What each loop of [init_worker_threads] does to the entry at one key
    [K]; the lemmas further down show that the loops act on the pool in
    exactly this way. *)

Module Keywise.

(** Marked redundant in the mode its idle flag calls for. *)
Definition mark (w : Worker.t) : Worker.t :=
  Worker.set_redundant (Worker.idle w) w.

Definition only_alive (o : option Worker.t) : option Worker.t :=
  match o with
  | Some w => if Worker.is_alive w then Some w else None
  | None => None
  end.

(** The handle [start_worker_thread] creates for index [i] of group [g]. *)
Definition fresh (g : WorkerGroup.t) (i : nat) : Worker.t :=
  Worker.start (Fmt.worker_id (WorkerGroup.name g) i)
               (Fmt.worker_name (WorkerGroup.name g) i) (WorkerGroup.id g).

Definition create (g : WorkerGroup.t) (K : string) (o : option Worker.t) (i : nat)
  : option Worker.t :=
  if Fmt.worker_id (WorkerGroup.name g) i =? K
  then match o with Some w => Some w | None => Some (fresh g i) end
  else o.

Definition remove (g : WorkerGroup.t) (K : string) (o : option Worker.t) (i : nat)
  : option Worker.t :=
  if Fmt.worker_id (WorkerGroup.name g) i =? K then option_map mark o else o.

Definition group (K : string) (o : option Worker.t) (g : WorkerGroup.t)
  : option Worker.t :=
  let n := WorkerGroup.number_of_workers g in
  fold_left (remove g K) (Py.range n 12) (fold_left (create g K) (Py.range 0 n) o).

Definition stale (ids : list nat) (names : list string) (w : Worker.t) : bool :=
  negb (Py.mem_nat (Worker.worker_group_id w) ids)
  || negb (Py.mem_str (Worker.name w) names).

Definition unstale (ids : list nat) (names : list string) (o : option Worker.t)
  : option Worker.t :=
  option_map (fun w => if stale ids names w then mark w else w) o.

(** The two sets [init_worker_threads] collects, as the loop builds them. *)
Definition expected_ids (gs : list WorkerGroup.t) (acc : list nat) : list nat :=
  fold_left (fun acc g => WorkerGroup.id g :: acc) gs acc.

Definition expected_names (gs : list WorkerGroup.t) (acc : list string) : list string :=
  fold_left
    (fun acc g =>
       fold_left (fun acc i => Fmt.worker_name (WorkerGroup.name g) i :: acc)
                 (Py.range 0 (WorkerGroup.number_of_workers g)) acc)
    gs acc.

(** The entry at [K] after [init_worker_threads], from the entry before. *)
Definition reconciled (gs : list WorkerGroup.t) (K : string) (o : option Worker.t)
  : option Worker.t :=
  unstale (expected_ids gs []) (expected_names gs [])
          (fold_left (group K) gs (only_alive o)).

End Keywise.

(** ** Properties of pools and call logs used in the statements *)

Module Props.

(** Everything but the pool and the call log is the same. *)
Definition frame (f f' : Foreman) : Prop :=
  abort_flag f' = abort_flag f /\ idle_workers f' = idle_workers f
  /\ pendingtasks f' = pendingtasks f /\ current_config f' = current_config f
  /\ last_schedule_run f' = last_schedule_run f
  /\ frontend_messages f' = frontend_messages f
  /\ worker_groups f' = worker_groups f.

(** The abort flag, the semaphore and the pending-task source are the same. *)
Definition same_signals (f f' : Foreman) : Prop :=
  abort_flag f' = abort_flag f /\ idle_workers f' = idle_workers f
  /\ pendingtasks f' = pendingtasks f.

(** The calls made between [f] and [f'] all satisfy [P]. *)
Definition emits (P : Call -> Prop) (f f' : Foreman) : Prop :=
  exists new, calls f' = calls f ++ new /\ Forall P new.

(** A marking in immediate mode hits an idle handle. *)
Definition safe_marking (c : Call) : Prop :=
  match c with
  | Worker_set_redundant _ w immediate => immediate = true -> Worker.idle w = true
  | _ => True
  end.

(** [w'] is [w], still alive and on the same task, at most marked
    redundant in pending mode. *)
Definition still_running (w w' : Worker.t) : Prop :=
  Worker.idle w' = false /\ Worker.is_alive w' = true
  /\ Worker.current_task w' = Worker.current_task w
  /\ (Worker.redundant w' = Worker.redundant w \/ Worker.redundant w' = Some false).

(** Running handles of [f] are still running in [f']. *)
Definition keeps_running (f f' : Foreman) : Prop :=
  forall k w,
    Pool.get k (worker_threads f) = Some w ->
    Worker.idle w = false -> Worker.is_alive w = true ->
    exists w', Pool.get k (worker_threads f') = Some w' /\ still_running w w'.

(** A call that changes nothing: no start, and a marking only of a
    handle that is already redundant in that mode. *)
Definition nothing_new (c : Call) : Prop :=
  match c with
  | Worker_start _ _ _ => False
  | Worker_set_redundant _ w immediate => Worker.redundant w = Some immediate
  | _ => True
  end.

(** A marking in pending mode, and nothing else. *)
Definition pending_marking (c : Call) : Prop :=
  match c with
  | Worker_set_redundant _ _ false => True
  | _ => False
  end.

Definition no_add_work (c : Call) : Prop :=
  match c with
  | Worker_add_work _ _ => False
  | _ => True
  end.

(** Every key and handle name of the pool is derived from a group name
    and an index, as [start_worker_thread] is called. *)
Definition derived (p : Pool.t) : Prop :=
  forall k w, Pool.get k p = Some w ->
    exists nm i, k = Fmt.worker_id nm i /\ Worker.name w = Fmt.worker_name nm i.

Definition unique_names (gs : list WorkerGroup.t) : Prop :=
  NoDup (map WorkerGroup.name gs).

(** The capacity property of group [g] in pool [p]: a live handle at
    each index below [number_of_workers], non-redundant where [ok] holds
    of its id, and every handle at an index from [number_of_workers] on
    marked redundant. *)
Definition capacity (ok : string -> Prop) (g : WorkerGroup.t) (p : Pool.t) : Prop :=
  (forall i, i < WorkerGroup.number_of_workers g ->
     exists h, Pool.get (Fmt.worker_id (WorkerGroup.name g) i) p = Some h
               /\ Worker.is_alive h = true
               /\ (ok (Fmt.worker_id (WorkerGroup.name g) i) ->
                   Worker.redundant h = None))
  /\ (forall i h, WorkerGroup.number_of_workers g <= i ->
        Pool.get (Fmt.worker_id (WorkerGroup.name g) i) p = Some h ->
        Worker.redundant h <> None).

(** The id is free before the run, or held by a dead handle, or held by
    a handle that is not redundant and belongs to a group of the store. *)
Definition reusable (f : Foreman) (k : string) : Prop :=
  match Pool.get k (worker_threads f) with
  | Some w =>
      Worker.is_alive w = true ->
      Worker.redundant w = None
      /\ In (Worker.worker_group_id w) (map WorkerGroup.id (worker_groups f))
  | None => True
  end.

Definition opt_all (P : Worker.t -> Prop) (o : option Worker.t) : Prop :=
  match o with Some w => P w | None => True end.

Definition distinct_keys (f : Foreman) : Prop := NoDup (Pool.keys (worker_threads f)).

(** The state is [f1] but for calls that change nothing. *)
Definition settled (f1 f' : Foreman) : Prop :=
  worker_threads f' = worker_threads f1 /\ frame f1 f' /\ emits nothing_new f1 f'.

(** The abort flag, the semaphore and the pending-task source are as
    before and no [add_work] call was made. *)
Definition quiet (f f' : Foreman) : Prop :=
  same_signals f f' /\ emits no_add_work f f'.

Definition mark_pending (f : Foreman) (thread : string) : Foreman :=
  mark_worker_thread_as_redundant thread false f.

(** The state of [stop] before its marking loop. *)
Definition signalled (f : Foreman) : Foreman :=
  call (Pending_shutdown true)
    (set_pendingtasks (Pending.shutdown true (pendingtasks f))
       (call Semaphore_release
          (set_idle_workers (S (idle_workers f)) (set_abort_flag true f)))).

(** The test one step of pruning applies to an entry. *)
Definition alive_or_other (k : string) (kv : string * Worker.t) : bool :=
  negb (fst kv =? k) || Worker.is_alive (snd kv).


(** Whether a schedule with this repetition is due on day [d] of the week
    (0 is Monday), read off the chain of tests in [manage_event_schedules]. *)
Definition due_on (repetition : option string) (d : nat) : bool :=
  let today := nth d days "" in
  Py.truthy_opt_str repetition
  && (opt_is repetition "daily"
      || (opt_is repetition "weekday" && negb (Py.mem_str today weekend_days))
      || (opt_is repetition "weekend" && Py.mem_str today weekend_days)
      || opt_is repetition today).



(** [sign_out] on a session and a table. *)
Definition sign_out_result (now : Z) (s : Session.t) (db : Installation.table) :=
  Session.sign_out now (s, db).

(** What the two collaborators do to the queue when the Foreman adds
    nothing in between. *)
Definition reported (e : Env) (q : Messages.t) : Messages.t :=
  limits_messages e (plugins_messages e q).

End Props.


(** ** Reconciliation with another thread in between

    [init_worker_threads] reads the idle flag of a handle and calls
    [set_redundant] in two statements, with no lock around them; it is
    reached from [on_worker_config_changed] on the caller's thread while
    the monitor loop hands out tasks on its own.  Here the second loop is
    written with what the other thread does between the two statements. *)

Module Between.

(** [is_idle = self.worker_threads[worker_id].idle], after the
    membership test. *)
Definition read_idle (worker_id : string) (f : Foreman) : option bool :=
  option_map Worker.idle (Pool.get worker_id (worker_threads f)).

(** Body of [for i in range(number_of_workers, 12)], the other thread
    running [other] between the read and the call. *)
Definition remove_thread_between (other : Foreman -> Foreman)
    (worker_group : WorkerGroup.t) (f : Foreman) (i : nat) : Foreman :=
  let worker_id := Fmt.worker_id (WorkerGroup.name worker_group) i in
  match read_idle worker_id f with
  | Some is_idle => mark_worker_thread_as_redundant worker_id is_idle (other f)
  | None => f
  end.

(** [reconcile_group] with the other thread acting at index [at_index]. *)
Definition reconcile_group_between (other : Foreman -> Foreman) (at_index : nat)
    (r : Reconcile) (worker_group : WorkerGroup.t) : Reconcile :=
  let r := mkReconcile (foreman r)
                       (WorkerGroup.id worker_group :: worker_group_ids r)
                       (worker_group_names r) in
  let n := WorkerGroup.number_of_workers worker_group in
  let r := fold_left (create_thread worker_group) (Py.range 0 n) r in
  mkReconcile
    (fold_left
       (fun f i =>
          if Nat.eqb i at_index
          then remove_thread_between other worker_group f i
          else remove_thread worker_group f i)
       (Py.range n 12) (foreman r))
    (worker_group_ids r) (worker_group_names r).

Definition init_worker_threads_between (other : Foreman -> Foreman) (at_index : nat)
    (f : Foreman) : Foreman :=
  let f := prune_dead_threads f in
  let r := fold_left (reconcile_group_between other at_index) (worker_groups f)
                     (mkReconcile f [] []) in
  fold_left (remove_stale (worker_group_ids r) (worker_group_names r))
            (Pool.keys (worker_threads (foreman r))) (foreman r).

End Between.
(** ** Facts about the formatting *)

Module FmtFacts.
Import Props Fmt.
Local Open Scope string_scope.

Lemma uint_digits_free (d : Decimal.uint) :
  free_of dash (DecimalString.NilEmpty.string_of_uint d).
Proof.
  induction d; simpl; auto; split; auto; unfold dash; discriminate.
Qed.

Lemma dec_free (i : nat) : free_of dash (dec i).
Proof. apply uint_digits_free. Qed.

Lemma dec_inj (i j : nat) : dec i = dec j -> i = j.
Proof.
  unfold dec. intros H.
  assert (E : Some (Nat.to_uint i) = Some (Nat.to_uint j)).
  { rewrite <- (DecimalString.NilEmpty.usu (Nat.to_uint i)), <- (DecimalString.NilEmpty.usu (Nat.to_uint j)).
    now rewrite H. }
  injection E as E. now apply DecimalNat.Unsigned.to_uint_inj.
Qed.

Lemma append_assoc (a b c : string) : (a ++ b) ++ c = a ++ (b ++ c).
Proof. induction a; simpl; congruence. Qed.

Lemma length_append (a b : string) :
  String.length (a ++ b) = String.length a + String.length b.
Proof. induction a; simpl; congruence. Qed.

Lemma append_inv_tail (t a b : string) : a ++ t = b ++ t -> a = b.
Proof.
  intros H.
  assert (L : String.length a = String.length b).
  { apply (f_equal String.length) in H.
    rewrite !length_append in H. lia. }
  revert b H L. induction a as [|x a IH]; intros [|y b] H L; simpl in *;
    try discriminate; auto.
  injection H as -> H. f_equal. apply IH; auto.
Qed.

(** The last dash of a string splits it in one way only. *)
Lemma split_last_dash (a b d e : string) :
  free_of dash d -> free_of dash e ->
  a ++ String dash d = b ++ String dash e -> a = b /\ d = e.
Proof.
  revert b. induction a as [|x a IH]; intros [|y b] Hd He H; simpl in *.
  - injection H as H. auto.
  - injection H as Hy H. subst y.
    exfalso. clear - Hd H. subst d.
    induction b; simpl in Hd; [ tauto | ]. tauto.
  - injection H as Hx H. subst x.
    exfalso. clear - He H. subst e.
    induction a; simpl in He; [ tauto | ]. tauto.
  - injection H as -> H. destruct (IH b Hd He H). split; congruence.
Qed.

Lemma worker_id_inj (n m : string) (i j : nat) :
  worker_id n i = worker_id m j -> n = m /\ i = j.
Proof.
  unfold worker_id. intros H.
  destruct (split_last_dash n m _ _ (dec_free i) (dec_free j) H) as [-> E].
  split; auto using dec_inj.
Qed.

Lemma worker_name_inj (n m : string) (i j : nat) :
  worker_name n i = worker_name m j -> n = m /\ i = j.
Proof.
  unfold worker_name. intros H.
  change (n ++ "-Worker-" ++ dec (i + 1))
    with (n ++ "-Worker" ++ String dash (dec (i + 1))) in H.
  change (m ++ "-Worker-" ++ dec (j + 1))
    with (m ++ "-Worker" ++ String dash (dec (j + 1))) in H.
  rewrite <- !append_assoc in H.
  destruct (split_last_dash _ _ _ _ (dec_free (i + 1)) (dec_free (j + 1)) H) as [E1 E2].
  apply append_inv_tail in E1. apply dec_inj in E2. split; auto; lia.
Qed.

End FmtFacts.

(** ** Facts about the pool dictionary *)

Module PoolFacts.
Import Props Pool.

Lemma get_modify (k k' : string) (f : Worker.t -> Worker.t) (p : t) :
  get k (modify k' f p) = if k' =? k then option_map f (get k p) else get k p.
Proof.
  induction p as [|[a w] p IH]; simpl.
  - now destruct (k' =? k).
  - destruct (String.eqb_spec a k') as [->|Hak]; simpl.
    + destruct (String.eqb_spec k' k) as [->|Hk]; simpl; auto.
    + destruct (String.eqb_spec a k) as [->|Hk]; simpl; auto.
      destruct (String.eqb_spec k' k); congruence.
Qed.

Lemma keys_modify (k : string) (f : Worker.t -> Worker.t) (p : t) :
  keys (modify k f p) = keys p.
Proof.
  unfold keys, modify. rewrite map_map. apply map_ext.
  intros [a w]; simpl. now destruct (a =? k).
Qed.

Lemma get_app (k : string) (p q : t) :
  get k (p ++ q) = match get k p with Some w => Some w | None => get k q end.
Proof.
  induction p as [|[a w] p IH]; simpl; auto. now destruct (a =? k).
Qed.

Lemma get_delitem (k k' : string) (p : t) :
  get k (delitem k' p) = if k' =? k then None else get k p.
Proof.
  induction p as [|[a w] p IH]; simpl.
  - now destruct (k' =? k).
  - destruct (String.eqb_spec a k') as [->|Hak]; simpl; auto.
    + rewrite IH. destruct (String.eqb_spec k' k); auto.
    + rewrite IH.
      destruct (String.eqb_spec a k) as [->|Hk]; auto.
      destruct (String.eqb_spec k' k); congruence.
Qed.

Lemma get_In (k : string) (w : Worker.t) (p : t) :
  get k p = Some w -> In (k, w) p.
Proof.
  induction p as [|[a x] p IH]; simpl; [discriminate|].
  destruct (String.eqb_spec a k) as [->|]; intros H; auto.
  injection H as ->. auto.
Qed.

Lemma get_None (k : string) (p : t) :
  get k p = None <-> ~ In k (keys p).
Proof.
  induction p as [|[a x] p IH]; simpl; [tauto|].
  destruct (String.eqb_spec a k) as [->|]; [split; [discriminate | tauto] | ].
  rewrite IH. tauto.
Qed.

Lemma In_keys_get (k : string) (p : t) :
  In k (keys p) -> exists w, get k p = Some w.
Proof.
  intros H. destruct (get k p) eqn:E; eauto.
  apply get_None in E. tauto.
Qed.

Lemma In_get (k : string) (w : Worker.t) (p : t) :
  NoDup (keys p) -> In (k, w) p -> get k p = Some w.
Proof.
  induction p as [|[a x] p IH]; simpl; [tauto|].
  intros ND [E|H].
  - injection E as -> ->. now rewrite String.eqb_refl.
  - inversion ND as [|? ? Hn ND']; subst.
    destruct (String.eqb_spec a k) as [->|]; auto.
    exfalso. apply Hn. change k with (fst (k, w)). now apply in_map.
Qed.

(** A method call that leaves the object as it is leaves the dict as it is. *)
Lemma modify_fixed (k : string) (f : Worker.t -> Worker.t) (p : t) :
  (forall w, In (k, w) p -> f w = w) -> modify k f p = p.
Proof.
  intros H. unfold modify.
  rewrite <- (map_id p) at 2. apply map_ext_in.
  intros [a w] Hin; simpl.
  destruct (String.eqb_spec a k) as [->|]; auto.
  now rewrite H.
Qed.

Lemma contains_keys (k : string) (p : t) :
  contains k p = true <-> In k (keys p).
Proof.
  unfold contains. destruct (get k p) eqn:E.
  - split; auto. intros _. destruct (get_None k p) as [_ H].
    destruct (in_dec string_dec k (keys p)); auto.
    rewrite H in E; [discriminate | auto].
  - apply get_None in E. split; [discriminate | tauto].
Qed.

Lemma NoDup_delitem (k : string) (p : t) :
  NoDup (keys p) -> NoDup (keys (delitem k p)).
Proof.
  induction p as [|[a w] p IH]; simpl; auto.
  intros ND. inversion ND as [|? ? Hn ND']; subst.
  destruct (a =? k); simpl; auto.
  constructor; auto.
  intros Hin. apply Hn. unfold keys, delitem in *.
  apply in_map_iff in Hin as [[b x] [E Hb]]. simpl in E. subst b.
  apply filter_In in Hb as [Hb _].
  change a with (fst (a, x)). now apply in_map.
Qed.

Lemma NoDup_setitem_new (k : string) (w : Worker.t) (p : t) :
  NoDup (keys p) -> contains k p = false -> NoDup (keys (setitem k w p)).
Proof.
  intros ND Hc. unfold setitem. rewrite Hc. unfold keys. rewrite map_app. simpl.
  apply NoDup_app; auto.
  - constructor; [intros [] | constructor].
  - intros x Hx [<-|[]].
    apply contains_keys in Hx. congruence.
Qed.

End PoolFacts.

(** ** Loops, frames and the call log *)

Module Steps.
Import Props.

(** An invariant of a loop body holds after the loop. *)
Lemma fold_left_inv {A B : Type} (P : A -> Prop) (step : A -> B -> A) (l : list B) :
  (forall a x, In x l -> P a -> P (step a x)) ->
  forall a, P a -> P (fold_left step l a).
Proof.
  induction l as [|x l IH]; simpl; intros Hs a Ha; auto.
Qed.

(** A relation between the state before and after a loop body that is
    reflexive and transitive relates the ends of the loop. *)
Lemma fold_left_rel {A B : Type} (R : A -> A -> Prop) (step : A -> B -> A) (l : list B) :
  (forall a, R a a) -> (forall a b c, R a b -> R b c -> R a c) ->
  (forall a x, In x l -> R a (step a x)) ->
  forall a, R a (fold_left step l a).
Proof.
  intros Hr Ht Hs a.
  apply (fold_left_inv (R a)); auto.
  intros b x Hx Hab. eapply Ht; eauto.
Qed.

(** The same, for a relation on a component of the loop state. *)
Lemma fold_left_rel_on {A B C : Type} (proj : A -> C) (R : C -> C -> Prop)
      (step : A -> B -> A) (l : list B) :
  (forall c, R c c) -> (forall a b c, R a b -> R b c -> R a c) ->
  (forall a x, In x l -> R (proj a) (proj (step a x))) ->
  forall a, R (proj a) (proj (fold_left step l a)).
Proof.
  intros Hr Ht Hs a.
  apply (fold_left_inv (fun b => R (proj a) (proj b))); auto.
  intros b x Hx Hab. eapply Ht; eauto.
Qed.




Lemma frame_refl f : frame f f.
Proof. unfold frame; tauto. Qed.

Lemma frame_trans f g h : frame f g -> frame g h -> frame f h.
Proof. unfold frame; intuition congruence. Qed.

Lemma frame_signals f g : frame f g -> same_signals f g.
Proof. unfold frame, same_signals; tauto. Qed.

Lemma same_signals_refl f : same_signals f f.
Proof. unfold same_signals; tauto. Qed.

Lemma same_signals_trans f g h :
  same_signals f g -> same_signals g h -> same_signals f h.
Proof. unfold same_signals; intuition congruence. Qed.

Lemma emits_refl P f : emits P f f.
Proof. exists []. rewrite app_nil_r. auto. Qed.

Lemma emits_trans P f g h : emits P f g -> emits P g h -> emits P f h.
Proof.
  intros [n1 [E1 F1]] [n2 [E2 F2]]. exists (n1 ++ n2). split.
  - rewrite E2, E1. now rewrite app_assoc.
  - apply Forall_app; auto.
Qed.

Lemma emits_weaken (P Q : Call -> Prop) f g :
  (forall c, P c -> Q c) -> emits P f g -> emits Q f g.
Proof.
  intros H [n [E F]]. exists n. split; auto.
  eapply Forall_impl; eauto.
Qed.

Lemma emits_call (P : Call -> Prop) c f g :
  P c -> calls g = calls f -> emits P f (call c g).
Proof.
  intros Hc E. exists [c]. simpl. rewrite E. auto.
Qed.

Lemma emits_same (P : Call -> Prop) f g : calls g = calls f -> emits P f g.
Proof. intros E. exists []. rewrite app_nil_r. auto. Qed.

Lemma frame_fold {B} (step : Foreman -> B -> Foreman) l :
  (forall a x, In x l -> frame a (step a x)) ->
  forall f, frame f (fold_left step l f).
Proof. apply fold_left_rel; [apply frame_refl | apply frame_trans]. Qed.

Lemma same_signals_fold {B} (step : Foreman -> B -> Foreman) l :
  (forall a x, In x l -> same_signals a (step a x)) ->
  forall f, same_signals f (fold_left step l f).
Proof.
  apply fold_left_rel; [apply same_signals_refl | apply same_signals_trans].
Qed.

Lemma emits_fold {B} P (step : Foreman -> B -> Foreman) l :
  (forall a x, In x l -> emits P a (step a x)) ->
  forall f, emits P f (fold_left step l f).
Proof. apply fold_left_rel; [apply emits_refl | apply emits_trans]. Qed.

(** *** Marking a handle redundant *)

Lemma mark_pool k imm f :
  worker_threads (mark_worker_thread_as_redundant k imm f)
  = Pool.modify k (Worker.set_redundant imm) (worker_threads f).
Proof.
  unfold mark_worker_thread_as_redundant.
  destruct (Pool.get k (worker_threads f)) eqn:E; simpl; auto.
  symmetry. apply PoolFacts.modify_fixed. intros w Hin.
  apply PoolFacts.get_None in E. exfalso. apply E.
  change k with (fst (k, w)). now apply in_map.
Qed.

Lemma mark_frame k imm f : frame f (mark_worker_thread_as_redundant k imm f).
Proof.
  unfold mark_worker_thread_as_redundant, frame.
  destruct (Pool.get k (worker_threads f)); simpl; tauto.
Qed.

Lemma mark_emits (P : Call -> Prop) k imm f :
  (forall w, Pool.get k (worker_threads f) = Some w ->
             P (Worker_set_redundant k w imm)) ->
  emits P f (mark_worker_thread_as_redundant k imm f).
Proof.
  intros H. unfold mark_worker_thread_as_redundant.
  destruct (Pool.get k (worker_threads f)) eqn:E.
  - apply emits_call; auto.
  - apply emits_refl.
Qed.

Lemma mark_get k imm f K :
  Pool.get K (worker_threads (mark_worker_thread_as_redundant k imm f))
  = if k =? K
    then option_map (Worker.set_redundant imm) (Pool.get K (worker_threads f))
    else Pool.get K (worker_threads f).
Proof. rewrite mark_pool. apply PoolFacts.get_modify. Qed.

End Steps.

(** ** What the pool operations leave alone *)

Module Frames.
Import Props Steps.

Lemma prune_frame f : frame f (prune_dead_threads f).
Proof.
  unfold prune_dead_threads. apply frame_fold. intros a k _.
  destruct (Pool.get k (worker_threads a)) as [w|]; [|apply frame_refl].
  destruct (Worker.is_alive w); simpl; [apply frame_refl|].
  unfold frame; simpl; tauto.
Qed.

Lemma prune_calls f : calls (prune_dead_threads f) = calls f.
Proof.
  unfold prune_dead_threads.
  apply (fold_left_inv (fun a => calls a = calls f)); auto.
  intros a k _ Ha.
  destruct (Pool.get k (worker_threads a)) as [w|]; auto.
  destruct (Worker.is_alive w); simpl; auto.
Qed.

Lemma start_frame k nm g f : frame f (start_worker_thread k nm g f).
Proof. unfold frame; simpl; tauto. Qed.

Lemma create_thread_frame g r i : frame (foreman r) (foreman (create_thread g r i)).
Proof.
  unfold create_thread.
  destruct (negb (Pool.contains _ _)); simpl;
    [apply start_frame | apply frame_refl].
Qed.

Lemma remove_thread_frame g f i : frame f (remove_thread g f i).
Proof.
  unfold remove_thread.
  destruct (Pool.get _ _); [apply mark_frame | apply frame_refl].
Qed.

Lemma remove_stale_frame ids names f k : frame f (remove_stale ids names f k).
Proof.
  unfold remove_stale.
  destruct (Pool.get _ _); [|apply frame_refl].
  destruct (_ || _); [apply mark_frame | apply frame_refl].
Qed.

Lemma reconcile_group_frame r g : frame (foreman r) (foreman (reconcile_group r g)).
Proof.
  unfold reconcile_group. simpl.
  eapply frame_trans; [|apply frame_fold; intros; apply remove_thread_frame].
  refine (fold_left_rel_on foreman frame _ _ frame_refl frame_trans _
                           (mkReconcile _ _ _)).
  intros; apply create_thread_frame.
Qed.

Lemma reconcile_groups_frame gs r :
  frame (foreman r) (foreman (fold_left reconcile_group gs r)).
Proof.
  apply (fold_left_rel_on foreman frame _ _ frame_refl frame_trans).
  intros; apply reconcile_group_frame.
Qed.

Lemma init_worker_threads_frame f : frame f (init_worker_threads f).
Proof.
  unfold init_worker_threads.
  eapply frame_trans; [apply prune_frame|].
  eapply frame_trans;
    [apply (reconcile_groups_frame (worker_groups (prune_dead_threads f))
                                   (mkReconcile (prune_dead_threads f) [] []))|].
  apply frame_fold. intros; apply remove_stale_frame.
Qed.

(** *** Calls made by reconciliation

    [P] holds of every start and of every marking in the mode given by
    the idle flag of the marked handle. *)
Section Emits.
Variable P : Call -> Prop.
Hypothesis P_start : forall k nm g, P (Worker_start k nm g).
Hypothesis P_mark : forall k w, P (Worker_set_redundant k w (Worker.idle w)).

Lemma create_thread_emits g r i :
  emits P (foreman r) (foreman (create_thread g r i)).
Proof.
  unfold create_thread.
  destruct (negb (Pool.contains _ _)); simpl; [|apply emits_refl].
  apply emits_call; auto.
Qed.

Lemma remove_thread_emits g f i : emits P f (remove_thread g f i).
Proof.
  unfold remove_thread.
  destruct (Pool.get _ _) as [w|] eqn:E; [|apply emits_refl].
  apply mark_emits. intros w' E'. rewrite E in E'. injection E' as <-. auto.
Qed.

Lemma remove_stale_emits ids names f k : emits P f (remove_stale ids names f k).
Proof.
  unfold remove_stale.
  destruct (Pool.get _ _) as [w|] eqn:E; [|apply emits_refl].
  destruct (_ || _); [|apply emits_refl].
  apply mark_emits. intros w' E'. rewrite E in E'. injection E' as <-. auto.
Qed.

Lemma reconcile_group_emits r g :
  emits P (foreman r) (foreman (reconcile_group r g)).
Proof.
  unfold reconcile_group. simpl.
  eapply emits_trans; [|apply emits_fold; intros; apply remove_thread_emits].
  refine (fold_left_rel_on foreman (emits P) _ _ (emits_refl P) (@emits_trans P) _
                           (mkReconcile _ _ _)).
  intros; apply create_thread_emits.
Qed.

Lemma init_worker_threads_emits f : emits P f (init_worker_threads f).
Proof.
  unfold init_worker_threads.
  eapply emits_trans; [apply emits_same; apply prune_calls|].
  eapply emits_trans; [|apply emits_fold; intros; apply remove_stale_emits].
  refine (fold_left_rel_on foreman (emits P) _ _ (emits_refl P) (@emits_trans P) _
                           (mkReconcile _ _ _)).
  intros; apply reconcile_group_emits.
Qed.
End Emits.

End Frames.

(** ** The loops of reconciliation act key by key *)

Module KeywiseFacts.
Import Props Keywise Steps.

Lemma fold_get {A B : Type} (proj : A -> Foreman) (step : A -> B -> A)
      (T : option Worker.t -> B -> option Worker.t) (K : string) :
  (forall a x, Pool.get K (worker_threads (proj (step a x)))
               = T (Pool.get K (worker_threads (proj a))) x) ->
  forall l a, Pool.get K (worker_threads (proj (fold_left step l a)))
              = fold_left T l (Pool.get K (worker_threads (proj a))).
Proof.
  intros H. induction l as [|x l IH]; simpl; intros a; auto.
  now rewrite IH, H.
Qed.

(** A loop over keys whose body touches only its own key, and does so
    idempotently. *)
Lemma keyed_fold (A : option Worker.t -> option Worker.t) (K : string)
      (ks : list string) (o : option Worker.t) :
  (forall o, A (A o) = A o) ->
  fold_left (fun o k => if k =? K then A o else o) ks o
  = if existsb (String.eqb K) ks then A o else o.
Proof.
  intros HA. revert o. induction ks as [|k ks IH]; simpl; intros o; auto.
  rewrite IH. rewrite (String.eqb_sym K k).
  destruct (k =? K); simpl; auto.
  rewrite HA. now destruct (existsb _ ks).
Qed.

Lemma absent_key (K : string) (p : Pool.t) :
  existsb (String.eqb K) (Pool.keys p) = false -> Pool.get K p = None.
Proof.
  intros H. apply PoolFacts.get_None. intros Hin.
  assert (E : existsb (String.eqb K) (Pool.keys p) = true).
  { apply existsb_exists. exists K. split; auto. apply String.eqb_refl. }
  congruence.
Qed.

Lemma over_all_keys (A : option Worker.t -> option Worker.t) (K : string) (p : Pool.t) :
  A None = None ->
  (if existsb (String.eqb K) (Pool.keys p) then A (Pool.get K p) else Pool.get K p)
  = A (Pool.get K p).
Proof.
  intros HN. destruct (existsb _ _) eqn:E; auto.
  now rewrite (absent_key _ _ E).
Qed.

(** *** Facts about the handle-level steps *)

Lemma mark_mark w : mark (mark w) = mark w.
Proof. reflexivity. Qed.

Lemma stale_mark ids names w : stale ids names (mark w) = stale ids names w.
Proof. reflexivity. Qed.

Lemma only_alive_idem o : only_alive (only_alive o) = only_alive o.
Proof.
  destruct o as [w|]; simpl; auto.
  destruct (Worker.is_alive w) eqn:E; simpl; auto. now rewrite E.
Qed.

Lemma unstale_idem ids names o :
  unstale ids names (unstale ids names o) = unstale ids names o.
Proof.
  destruct o as [w|]; simpl; auto.
  destruct (stale ids names w) eqn:E; simpl.
  - now rewrite stale_mark, E.
  - now rewrite E.
Qed.

(** *** Pruning *)

Lemma prune_get K f :
  Pool.get K (worker_threads (prune_dead_threads f))
  = only_alive (Pool.get K (worker_threads f)).
Proof.
  unfold prune_dead_threads.
  rewrite (fold_get (fun f => f) _
             (fun o k => if k =? K then only_alive o else o)).
  - rewrite keyed_fold by apply only_alive_idem.
    now apply over_all_keys.
  - intros a k.
    destruct (Pool.get k (worker_threads a)) as [w|] eqn:E.
    + destruct (Worker.is_alive w) eqn:Ha; simpl.
      * destruct (String.eqb_spec k K) as [->|]; auto.
        rewrite E. simpl. now rewrite Ha.
      * rewrite PoolFacts.get_delitem.
        destruct (String.eqb_spec k K) as [->|]; auto.
        rewrite E. simpl. now rewrite Ha.
    + destruct (String.eqb_spec k K) as [->|]; auto.
      now rewrite E.
Qed.

(** *** The loops over one group *)

Lemma create_thread_get K g r i :
  Pool.get K (worker_threads (foreman (create_thread g r i)))
  = create g K (Pool.get K (worker_threads (foreman r))) i.
Proof.
  unfold create_thread, create, Pool.contains.
  destruct (Pool.get (Fmt.worker_id (WorkerGroup.name g) i)
                     (worker_threads (foreman r))) as [w|] eqn:E; simpl.
  - destruct (String.eqb_spec (Fmt.worker_id (WorkerGroup.name g) i) K) as [<-|]; auto.
    now rewrite E.
  - unfold Pool.setitem, Pool.contains. rewrite E.
    rewrite PoolFacts.get_app. simpl.
    destruct (String.eqb_spec (Fmt.worker_id (WorkerGroup.name g) i) K) as [<-|].
    + now rewrite E.
    + now destruct (Pool.get K (worker_threads (foreman r))).
Qed.

Lemma remove_thread_get K g f i :
  Pool.get K (worker_threads (remove_thread g f i))
  = remove g K (Pool.get K (worker_threads f)) i.
Proof.
  unfold remove_thread, remove.
  destruct (Pool.get (Fmt.worker_id (WorkerGroup.name g) i) (worker_threads f))
    as [w|] eqn:E.
  - rewrite mark_get.
    destruct (String.eqb_spec (Fmt.worker_id (WorkerGroup.name g) i) K) as [<-|]; auto.
    now rewrite E.
  - destruct (String.eqb_spec (Fmt.worker_id (WorkerGroup.name g) i) K) as [<-|]; auto.
    now rewrite E.
Qed.

Lemma reconcile_group_get K r g :
  Pool.get K (worker_threads (foreman (reconcile_group r g)))
  = group K (Pool.get K (worker_threads (foreman r))) g.
Proof.
  unfold reconcile_group, group. cbn [foreman].
  rewrite (fold_get (fun f => f) _ (remove g K)) by (intros; apply remove_thread_get).
  f_equal.
  now rewrite (fold_get foreman _ (create g K)) by (intros; apply create_thread_get).
Qed.

Lemma reconcile_groups_get K gs r :
  Pool.get K (worker_threads (foreman (fold_left reconcile_group gs r)))
  = fold_left (group K) gs (Pool.get K (worker_threads (foreman r))).
Proof. apply fold_get. intros; apply reconcile_group_get. Qed.

(** *** The collected ids and names depend on the store only *)

Lemma create_loop_names g l r :
  worker_group_names (fold_left (create_thread g) l r)
  = fold_left (fun acc i => Fmt.worker_name (WorkerGroup.name g) i :: acc) l
              (worker_group_names r)
  /\ worker_group_ids (fold_left (create_thread g) l r) = worker_group_ids r.
Proof.
  revert r. induction l as [|i l IH]; simpl; intros r; auto.
  destruct (IH (create_thread g r i)) as [-> ->].
  unfold create_thread. now destruct (negb _).
Qed.

Lemma reconcile_groups_sets gs r :
  worker_group_ids (fold_left reconcile_group gs r)
  = expected_ids gs (worker_group_ids r)
  /\ worker_group_names (fold_left reconcile_group gs r)
     = expected_names gs (worker_group_names r).
Proof.
  revert r. induction gs as [|g gs IH]; simpl; intros r; auto.
  destruct (IH (reconcile_group r g)) as [-> ->].
  unfold reconcile_group. cbn [worker_group_ids worker_group_names].
  destruct (create_loop_names g (Py.range 0 (WorkerGroup.number_of_workers g))
              (mkReconcile (foreman r) (WorkerGroup.id g :: worker_group_ids r)
                           (worker_group_names r))) as [-> ->].
  auto.
Qed.

(** *** The last loop *)

Lemma remove_stale_get K ids names f k :
  Pool.get K (worker_threads (remove_stale ids names f k))
  = if k =? K then unstale ids names (Pool.get K (worker_threads f))
    else Pool.get K (worker_threads f).
Proof.
  unfold remove_stale.
  destruct (Pool.get k (worker_threads f)) as [w|] eqn:E.
  - fold (stale ids names w).
    destruct (stale ids names w) eqn:S.
    + rewrite mark_get.
      destruct (String.eqb_spec k K) as [->|]; auto.
      rewrite E. simpl. now rewrite S.
    + destruct (String.eqb_spec k K) as [->|]; auto.
      rewrite E. simpl. now rewrite S.
  - destruct (String.eqb_spec k K) as [->|]; auto.
    now rewrite E.
Qed.

Lemma remove_stale_loop_get K ids names f :
  Pool.get K (worker_threads
                (fold_left (remove_stale ids names) (Pool.keys (worker_threads f)) f))
  = unstale ids names (Pool.get K (worker_threads f)).
Proof.
  rewrite (fold_get (fun f => f) _
             (fun o k => if k =? K then unstale ids names o else o))
    by (intros; apply remove_stale_get).
  rewrite keyed_fold by apply unstale_idem.
  now apply over_all_keys.
Qed.

(** *** The whole of [init_worker_threads], at one key *)

Theorem init_worker_threads_get K f :
  Pool.get K (worker_threads (init_worker_threads f))
  = reconciled (worker_groups f) K (Pool.get K (worker_threads f)).
Proof.
  unfold init_worker_threads, reconciled.
  rewrite remove_stale_loop_get.
  destruct (reconcile_groups_sets (worker_groups (prune_dead_threads f))
              (mkReconcile (prune_dead_threads f) [] [])) as [-> ->].
  rewrite reconcile_groups_get. cbn [foreman worker_group_ids worker_group_names].
  rewrite prune_get.
  destruct (Frames.prune_frame f) as (_ & _ & _ & _ & _ & _ & ->).
  reflexivity.
Qed.

End KeywiseFacts.

(** ** The entry at one key after reconciliation *)

Module Reconciled.
Import Keywise Props FmtFacts.

Lemma in_range (i a b : nat) : In i (Py.range a b) <-> a <= i < b.
Proof. unfold Py.range. rewrite in_seq. lia. Qed.

(** *** One group *)

Lemma create_loop_some g K l w :
  fold_left (create g K) l (Some w) = Some w.
Proof.
  induction l as [|j l IH]; simpl; auto.
  unfold create at 2. now destruct (_ =? _).
Qed.

Lemma create_loop_miss g K l o :
  (forall j, In j l -> Fmt.worker_id (WorkerGroup.name g) j <> K) ->
  fold_left (create g K) l o = o.
Proof.
  revert o. induction l as [|j l IH]; simpl; intros o H; auto.
  unfold create at 2.
  destruct (String.eqb_spec (Fmt.worker_id (WorkerGroup.name g) j) K) as [E|_].
  - exfalso. eapply H; eauto.
  - apply IH. auto.
Qed.

Lemma create_loop_hit g i l o :
  In i l ->
  fold_left (create g (Fmt.worker_id (WorkerGroup.name g) i)) l o
  = match o with Some w => Some w | None => Some (fresh g i) end.
Proof.
  revert o. induction l as [|j l IH]; simpl; intros o H; [tauto|].
  unfold create at 2.
  destruct (String.eqb_spec (Fmt.worker_id (WorkerGroup.name g) j)
                            (Fmt.worker_id (WorkerGroup.name g) i)) as [E|N].
  - apply worker_id_inj in E as [_ ->].
    destruct o as [w|]; apply create_loop_some.
  - destruct H as [->|H]; [congruence|]. now apply IH.
Qed.

Lemma remove_loop_miss g K l o :
  (forall j, In j l -> Fmt.worker_id (WorkerGroup.name g) j <> K) ->
  fold_left (remove g K) l o = o.
Proof.
  revert o. induction l as [|j l IH]; simpl; intros o H; auto.
  unfold remove at 2.
  destruct (String.eqb_spec (Fmt.worker_id (WorkerGroup.name g) j) K) as [E|_].
  - exfalso. eapply H; eauto.
  - apply IH. auto.
Qed.

Lemma remove_loop_marked g K l o :
  fold_left (remove g K) l (option_map mark o) = option_map mark o.
Proof.
  induction l as [|j l IH]; simpl; auto.
  unfold remove at 2. destruct (_ =? _); auto.
  now destruct o.
Qed.

Lemma remove_loop_hit g i l o :
  In i l ->
  fold_left (remove g (Fmt.worker_id (WorkerGroup.name g) i)) l o = option_map mark o.
Proof.
  revert o. induction l as [|j l IH]; simpl; intros o H; [tauto|].
  unfold remove at 2.
  destruct (String.eqb_spec (Fmt.worker_id (WorkerGroup.name g) j)
                            (Fmt.worker_id (WorkerGroup.name g) i)) as [E|N].
  - apply remove_loop_marked.
  - destruct H as [->|H]; [congruence|]. now apply IH.
Qed.

Lemma own_key_miss g i l :
  ~ In i l ->
  forall j, In j l ->
            Fmt.worker_id (WorkerGroup.name g) j <> Fmt.worker_id (WorkerGroup.name g) i.
Proof.
  intros H j Hj E. apply worker_id_inj in E as [_ ->]. tauto.
Qed.

(** An index below the count: the entry is kept, or created. *)
Lemma group_below g i o :
  i < WorkerGroup.number_of_workers g ->
  group (Fmt.worker_id (WorkerGroup.name g) i) o g
  = match o with Some w => Some w | None => Some (fresh g i) end.
Proof.
  intros H. unfold group.
  rewrite create_loop_hit by (apply in_range; lia).
  apply remove_loop_miss. apply own_key_miss. rewrite in_range. lia.
Qed.

(** An index from the count up to 11: the entry is marked. *)
Lemma group_shrunk g i o :
  WorkerGroup.number_of_workers g <= i -> i < 12 ->
  group (Fmt.worker_id (WorkerGroup.name g) i) o g = option_map mark o.
Proof.
  intros H H'. unfold group.
  rewrite create_loop_miss by (apply own_key_miss; rewrite in_range; lia).
  apply remove_loop_hit. apply in_range. lia.
Qed.

(** An index from 12 on that is not below the count: nothing happens. *)
Lemma group_beyond g i o :
  WorkerGroup.number_of_workers g <= i -> 12 <= i ->
  group (Fmt.worker_id (WorkerGroup.name g) i) o g = o.
Proof.
  intros H H'. unfold group.
  rewrite create_loop_miss by (apply own_key_miss; rewrite in_range; lia).
  apply remove_loop_miss. apply own_key_miss. rewrite in_range. lia.
Qed.

(** A key of another group name: nothing happens. *)
Lemma group_other g K o :
  (forall j, Fmt.worker_id (WorkerGroup.name g) j <> K) ->
  group K o g = o.
Proof.
  intros H. unfold group.
  rewrite create_loop_miss by auto. apply remove_loop_miss. auto.
Qed.

(** *** All groups, with unique names *)

Lemma groups_other gs K o :
  (forall g j, In g gs -> Fmt.worker_id (WorkerGroup.name g) j <> K) ->
  fold_left (group K) gs o = o.
Proof.
  revert o. induction gs as [|g gs IH]; simpl; intros o H; auto.
  rewrite group_other by (intros j; apply H; auto).
  apply IH. intros; apply H; auto.
Qed.

Lemma other_name nm nm' i j :
  nm' <> nm -> Fmt.worker_id nm' j <> Fmt.worker_id nm i.
Proof. intros N E. apply worker_id_inj in E as [E _]. auto. Qed.

Lemma groups_own gs g i o :
  unique_names gs -> In g gs ->
  fold_left (group (Fmt.worker_id (WorkerGroup.name g) i)) gs o
  = group (Fmt.worker_id (WorkerGroup.name g) i) o g.
Proof.
  unfold unique_names. revert o.
  induction gs as [|g' gs IH]; simpl; intros o ND Hin; [tauto|].
  inversion ND as [|? ? Hn ND']; subst.
  destruct Hin as [->|Hin].
  - apply groups_other. intros g2 j H2. apply other_name.
    intros E. apply Hn. rewrite <- E. now apply in_map.
  - rewrite group_other; auto.
    intros j. apply other_name. intros E. apply Hn. rewrite E. now apply in_map.
Qed.

Lemma same_group gs g g' :
  unique_names gs -> In g gs -> In g' gs ->
  WorkerGroup.name g' = WorkerGroup.name g -> g' = g.
Proof.
  unfold unique_names.
  induction gs as [|a gs IH]; simpl; intros ND H H' E; [tauto|].
  inversion ND as [|? ? Hn ND']; subst.
  destruct H as [->|H], H' as [->|H']; auto.
  - exfalso. apply Hn. rewrite <- E. now apply in_map.
  - exfalso. apply Hn. rewrite E. now apply in_map.
Qed.

(** *** The collected sets *)

Lemma mem_nat_In x l : Py.mem_nat x l = true <-> In x l.
Proof.
  unfold Py.mem_nat. rewrite existsb_exists. split.
  - intros [y [Hy E]]. apply Nat.eqb_eq in E. now subst.
  - intros H. exists x. split; auto. apply Nat.eqb_refl.
Qed.

Lemma mem_str_In x l : Py.mem_str x l = true <-> In x l.
Proof.
  unfold Py.mem_str. rewrite existsb_exists. split.
  - intros [y [Hy E]]. apply String.eqb_eq in E. now subst.
  - intros H. exists x. split; auto. apply String.eqb_refl.
Qed.

Lemma expected_ids_In gs acc x :
  In x (expected_ids gs acc) <-> In x (map WorkerGroup.id gs) \/ In x acc.
Proof.
  unfold expected_ids. revert acc.
  induction gs as [|g gs IH]; simpl; intros acc; [tauto|].
  rewrite IH. simpl. tauto.
Qed.

Lemma names_loop_In nm l acc x :
  In x (fold_left (fun acc i => Fmt.worker_name nm i :: acc) l acc)
  <-> (exists i, In i l /\ x = Fmt.worker_name nm i) \/ In x acc.
Proof.
  revert acc. induction l as [|j l IH]; simpl; intros acc.
  - split; auto. intros [[i [[] _]]|]; auto.
  - rewrite IH. simpl. split.
    + intros [[i [Hi E]]|[E|H]]; eauto.
    + intros [[i [[->|Hi] E]]|H]; eauto.
Qed.

Lemma expected_names_In gs acc x :
  In x (expected_names gs acc)
  <-> (exists g i, In g gs /\ i < WorkerGroup.number_of_workers g
                   /\ x = Fmt.worker_name (WorkerGroup.name g) i)
      \/ In x acc.
Proof.
  unfold expected_names. revert acc.
  induction gs as [|g gs IH]; simpl; intros acc.
  - split; auto. intros [[g [i [[] _]]]|]; auto.
  - rewrite IH, names_loop_In. split.
    + intros [[g' [i [Hg [Hi E]]]]|[[i [Hi E]]|H]]; eauto 8.
      apply in_range in Hi. left. exists g, i. repeat split; auto. lia.
    + intros [[g' [i [[->|Hg] [Hi E]]]]|H]; eauto 8.
      right. left. exists i. split; auto. apply in_range. lia.
Qed.

End Reconciled.

(** ** Backpressure *)

Module QueueFull.
Import Props.

Lemma fold_left_add (l : list WorkerGroup.t) (c : nat) :
  fold_left (fun worker_count g => worker_count + WorkerGroup.number_of_workers g) l c
  = c + list_sum (map WorkerGroup.number_of_workers l).
Proof.
  revert c. induction l as [|g l IH]; simpl; intros c; [lia|].
  rewrite IH. lia.
Qed.

Lemma get_total_worker_count_sum (f : Foreman) :
  get_total_worker_count f
  = list_sum (map WorkerGroup.number_of_workers (worker_groups f)).
Proof. unfold get_total_worker_count. now rewrite fold_left_add. Qed.

Lemma has_remove_item (i : string) (q : Messages.t) :
  Messages.has i (Messages.remove_item i q) = false.
Proof.
  unfold Messages.has, Messages.remove_item.
  induction q as [|m q IH]; simpl; auto.
  destruct (Messages.id m =? i) eqn:E; simpl; auto.
  now rewrite E.
Qed.

Lemma has_update (m : Messages.message) (q : Messages.t) :
  Messages.has (Messages.id m) (Messages.update m q) = true.
Proof.
  unfold Messages.has, Messages.update. rewrite existsb_app. simpl.
  rewrite String.eqb_refl. apply orb_true_iff. auto.
Qed.

(** C9: [postprocessor_queue_full] answers True, and posts the status
    message 'pendingTaskHaltedPostProcessorQueueFull', exactly when the
    number of processed tasks is strictly greater than the sum of
    [number_of_workers] over all worker groups plus one; otherwise it
    removes that message and answers False. *)
Theorem postprocessor_queue_full_spec (processed : list Task) (f : Foreman) :
  let limit := list_sum (map WorkerGroup.number_of_workers (worker_groups f)) + 1 in
  let full := fst (postprocessor_queue_full processed f) in
  let after := frontend_messages (snd (postprocessor_queue_full processed f)) in
  (full = true <-> limit < List.length processed)
  /\ (full = true ->
      after = Messages.update queue_full_message (frontend_messages f)
      /\ Messages.has "pendingTaskHaltedPostProcessorQueueFull" after = true)
  /\ (full = false ->
      after = Messages.remove_item "pendingTaskHaltedPostProcessorQueueFull"
                                   (frontend_messages f)
      /\ Messages.has "pendingTaskHaltedPostProcessorQueueFull" after = false).
Proof.
  cbv zeta. unfold postprocessor_queue_full.
  rewrite get_total_worker_count_sum.
  destruct (Nat.ltb_spec
              (list_sum (map WorkerGroup.number_of_workers (worker_groups f)) + 1)
              (List.length processed)) as [H|H]; simpl.
  - split; [tauto|]. split; [|discriminate].
    intros _. split; auto. apply (has_update queue_full_message).
  - split; [split; [discriminate | lia]|]. split; [discriminate|].
    intros _. split; auto. apply has_remove_item.
Qed.

End QueueFull.

(** ** Status lookup by id *)

Module Status.
Import Props.

Lemma raised_stays (worker_id : string) (l : Pool.t) (e : Py.exn) :
  fold_left
    (fun (acc : Py.result (option Worker.status)) kv =>
       Py.bind acc (fun result => match_status worker_id result kv))
    l (Py.Raise e) = Py.Raise e.
Proof. induction l; simpl; auto. Qed.

Lemma int_raises (s : string) (e : Py.exn) :
  Py.int s = Py.Raise e -> e = Py.ValueError.
Proof.
  unfold Py.int.
  destruct (match Py.strip _ with [] => _ | _ => _ end); congruence.
Qed.

(** With an empty pool the loop body never runs. *)
Lemma get_worker_status_empty (worker_id : string) (f : Foreman) :
  worker_threads f = [] -> get_worker_status worker_id f = Py.Ok None.
Proof. unfold get_worker_status. now intros ->. Qed.

(** A group-derived id whose group name starts with a letter is not an
    integer literal. *)
Example int_of_worker_id :
  Py.int (Fmt.worker_id "default" 0) = Py.Raise Py.ValueError.
Proof. vm_compute. reflexivity. Qed.

(** When the first key of the pool is no integer literal the lookup
    raises, whatever id is asked for. *)
Lemma get_worker_status_first_key (worker_id k : string) (w : Worker.t) (p : Pool.t)
      (f : Foreman) :
  worker_threads f = (k, w) :: p ->
  Py.int k = Py.Raise Py.ValueError ->
  get_worker_status worker_id f = Py.Raise Py.ValueError.
Proof.
  intros E Hk. unfold get_worker_status. rewrite E. simpl.
  assert (S : match_status worker_id None (k, w) = Py.Raise Py.ValueError).
  { unfold match_status. simpl. rewrite Hk.
    destruct (Py.int worker_id) as [a|e] eqn:Ea; simpl; auto.
    now rewrite (int_raises _ _ Ea). }
  rewrite S. apply raised_stays.
Qed.

(** C10 (the code departs from it): with one worker of the group
    ["default"] in the pool, asking for the status of that very worker
    raises ValueError instead of returning its snapshot. *)
Theorem get_worker_status_raises :
  Pool.keys (worker_threads (Examples.started 1 [])) = ["default-0"]
  /\ get_worker_status "default-0" (Examples.started 1 [])
     = Py.Raise Py.ValueError.
Proof. split; vm_compute; reflexivity. Qed.

End Status.

(** ** Schedule ticks *)

Module Schedules.
Import Props Examples.

(** The minute of the last scheduled action is written down by [run_task]. *)
Example last_schedule_run_is_recorded :
  last_schedule_run (tick_at_nine (started 1 [nine_daily_pause])) = Some "09:00".
Proof. vm_compute. reflexivity. Qed.

(** A resize schedule saves the group on each of two ticks in one minute. *)
Example count_saved_twice :
  saves (tick_at_nine (tick_at_nine (started 1 [nine_daily_count])))
  = [WorkerGroup_save 1 (Some 2); WorkerGroup_save 1 (Some 2)].
Proof. vm_compute. reflexivity. Qed.

(** C3 (the code departs from it): a daily 09:00 pause schedule runs
    its action on each of the two ticks that fall into the minute 09:00,
    twice in all, although the minute of the last run is on record. *)
Theorem schedule_fires_on_every_tick :
  scheduled_events_run (started 1 [nine_daily_pause]) = 0
  /\ scheduled_events_run (tick_at_nine (started 1 [nine_daily_pause])) = 1
  /\ scheduled_events_run
       (tick_at_nine (tick_at_nine (started 1 [nine_daily_pause]))) = 2.
Proof. split; [|split]; vm_compute; reflexivity. Qed.

End Schedules.

(** ** A task nobody accepts *)

Module Unassigned.
Import Props Examples Examples2.

Lemma assign_task_nobody (task : Task) (f : Foreman) :
  forallb (fun kv => negb (Worker.can_accept_work (snd kv))) (worker_threads f) = true ->
  assign_task task f = f.
Proof.
  intros H. unfold assign_task.
  destruct (find _ (worker_threads f)) as [[k w]|] eqn:E; auto.
  apply find_some in E as [Hin Hc]. simpl in Hc.
  rewrite forallb_forall in H. apply H in Hin. simpl in Hin.
  rewrite Hc in Hin. discriminate.
Qed.

(** A task taken from the source while no handle accepts work is in no
    one's hands afterwards: the source has lost it and the pool is as before. *)
Lemma take_task_nobody (task : Task) (rest : Pending.t) (f : Foreman) :
  Pending.get (pendingtasks f) = Pending.Got task rest ->
  forallb (fun kv => negb (Worker.can_accept_work (snd kv))) (worker_threads f) = true ->
  take_task f = Continue (set_pendingtasks rest f).
Proof.
  intros Hg Hn. unfold take_task. rewrite Hg.
  now rewrite assign_task_nobody.
Qed.

(** C5 (the code departs from it): with the only worker paused, one
    idle signal and task 7 queued, one pass of the loop takes the task
    from the source and continues; afterwards the source is empty, no
    handle holds a task and no [add_work] call was made. *)
Theorem unassigned_task_is_dropped :
  exists f',
    loop_body spell quiet_pass paused_with_task = Continue f'
    /\ Pending.items (pendingtasks paused_with_task) = [7]
    /\ Pending.items (pendingtasks f') = []
    /\ map Worker.current_task (Pool.values (worker_threads f')) = [None]
    /\ filter is_add_work (calls f') = [].
Proof.
  exists (match loop_body spell quiet_pass paused_with_task with
          | Continue f' => f'
          | Break f' => f'
          end).
  split; [|split; [|split; [|split]]]; vm_compute; reflexivity.
Qed.

End Unassigned.

(** ** The configuration gate *)

Module GateFacts.
Import Props.

Section WithDigest.

Variable digest : Library.settings -> string.

(** A hexdigest is never the empty string. *)
Hypothesis digest_nonempty : forall s, digest s <> "".

Lemma configuration_unchanged (cur : Library.settings) (f : Foreman) :
  digest cur = settings_hash (current_config f) ->
  configuration_changed digest cur f = (false, f).
Proof.
  intros H. unfold configuration_changed. rewrite H.
  now rewrite String.eqb_refl.
Qed.

Lemma configuration_changed_iff (cur : Library.settings) (f : Foreman) :
  fst (configuration_changed digest cur f) = false
  <-> digest cur = settings_hash (current_config f).
Proof.
  unfold configuration_changed.
  destruct (String.eqb_spec (digest cur) (settings_hash (current_config f)));
    simpl; split; intros; auto; try discriminate; contradiction.
Qed.

(** On a different hash the new hash is always recorded; the new
    settings are recorded when they are a non-empty dictionary. *)
Lemma configuration_changed_records (cur : Library.settings) (f : Foreman) :
  digest cur <> settings_hash (current_config f) ->
  let r := configuration_changed digest cur f in
  fst r = true
  /\ settings_hash (current_config (snd r)) = digest cur
  /\ (cur <> [] -> settings (current_config (snd r)) = cur)
  /\ (cur = [] -> settings (current_config (snd r)) = settings (current_config f)).
Proof.
  intros H. cbv zeta. unfold configuration_changed.
  destruct (String.eqb_spec (digest cur) (settings_hash (current_config f)));
    [contradiction|].
  unfold save_current_config, Py.truthy_opt_str, Py.truthy_str.
  destruct (String.eqb_spec (digest cur) ""); [now apply digest_nonempty in e|].
  destruct cur; simpl; repeat split; auto; congruence.
Qed.

(** The check leaves the message queue alone. *)
Lemma configuration_changed_messages (cur : Library.settings) (f : Foreman) :
  frontend_messages (snd (configuration_changed digest cur f)) = frontend_messages f.
Proof.
  unfold configuration_changed.
  destruct (digest cur =? settings_hash (current_config f)); [reflexivity|].
  cbn [snd]. unfold save_current_config.
  match goal with
  | |- context [Py.truthy_opt_str ?x] => destruct (Py.truthy_opt_str x)
  end; destruct cur; reflexivity.
Qed.

Lemma validate_passes (e : Env) (f : Foreman) :
  incompatible_enabled_plugins e = false ->
  within_library_count_limits e = true ->
  digest (library_configuration e) = settings_hash (current_config f) ->
  validate_worker_config digest e f
  = (true, set_frontend_messages (reported e (frontend_messages f)) f).
Proof.
  intros Hi Hl Hd. unfold validate_worker_config.
  rewrite (configuration_unchanged (library_configuration e)
             (set_frontend_messages (plugins_messages e (frontend_messages f)) f) Hd).
  now rewrite Hi, Hl.
Qed.

Lemma validate_fails (e : Env) (f : Foreman) :
  digest (library_configuration e) <> settings_hash (current_config f) ->
  let r := validate_worker_config digest e f in
  fst r = false
  /\ settings_hash (current_config (snd r)) = digest (library_configuration e)
  /\ frontend_messages (snd r)
     = limits_messages e
         (Messages.put settings_changed_message
                       (plugins_messages e (frontend_messages f))).
Proof.
  intros Hd. cbv zeta. unfold validate_worker_config.
  set (f0 := set_frontend_messages (plugins_messages e (frontend_messages f)) f).
  destruct (configuration_changed_records (library_configuration e) f0 Hd)
    as [Hc [Hh _]].
  pose proof (configuration_changed_messages (library_configuration e) f0) as Hm.
  destruct (configuration_changed digest (library_configuration e) f0)
    as [changed f'] eqn:E.
  simpl in Hc, Hh, Hm. subst changed. simpl.
  split; [now destruct (within_library_count_limits e)|].
  split; auto. now rewrite Hm.
Qed.

(** The round trip of the gate: a Foreman whose snapshot is [old]
    passes twice on [old]; after an edit to [new] the next validation
    fails, the warning being put on the queue before the library-count
    check is handed it, and the one after it passes. *)
Lemma gate_round_trip (old new : Library.settings) (f : Foreman)
      (e_old e_new : Env) :
  library_configuration e_old = old -> library_configuration e_new = new ->
  incompatible_enabled_plugins e_old = false ->
  within_library_count_limits e_old = true ->
  incompatible_enabled_plugins e_new = false ->
  within_library_count_limits e_new = true ->
  settings_hash (current_config f) = digest old ->
  digest new <> digest old ->
  let v1 := validate_worker_config digest e_old f in
  let v2 := validate_worker_config digest e_old (snd v1) in
  let v3 := validate_worker_config digest e_new (snd v2) in
  let v4 := validate_worker_config digest e_new (snd v3) in
  fst v1 = true /\ fst v2 = true
  /\ fst v3 = false
  /\ frontend_messages (snd v3)
     = limits_messages e_new
         (Messages.put settings_changed_message
            (plugins_messages e_new (frontend_messages (snd v2))))
  /\ fst v4 = true.
Proof.
  intros Eo En Io Lo In_ Ln Hs Hne. cbv zeta.
  rewrite (validate_passes e_old f) by (auto; congruence). cbn [fst snd].
  rewrite (validate_passes e_old) by (auto; simpl; congruence). cbn [fst snd].
  set (f2 := set_frontend_messages _ (set_frontend_messages _ f)).
  assert (Hd : digest (library_configuration e_new)
               <> settings_hash (current_config f2)) by (simpl; congruence).
  destruct (validate_fails e_new f2 Hd) as [H3 [Hh Hm]].
  split; [reflexivity|]. split; [reflexivity|]. split; [exact H3|].
  split; [exact Hm|].
  rewrite validate_passes; auto.
Qed.

End WithDigest.

Import Examples Examples2.

Example gate_round_trip_run :
  let f := init spell library_a no_pending [] in
  let edited := mkEnv [] "08:59" 0 library_b false true silent limits_fine in
  fst (validate_worker_config spell quiet_pass f) = true
  /\ fst (validate_worker_config spell edited f) = false
  /\ fst (validate_worker_config spell edited
            (snd (validate_worker_config spell edited f))) = true.
Proof. cbv zeta. split; [|split]; vm_compute; reflexivity. Qed.

(** C4 (the code departs from it): the stored snapshot holds the
    settings of one library and the current configuration is the empty
    dictionary.  [configuration_changed] answers True and records the
    new hash, but the recorded settings are still the old ones. *)
Theorem empty_settings_not_recorded :
  let r := configuration_changed spell [] snapshot_of_a in
  settings (current_config snapshot_of_a) = library_a
  /\ fst r = true
  /\ settings_hash (current_config (snd r)) = spell []
  /\ settings (current_config (snd r)) = library_a
  /\ settings (current_config (snd r)) <> [].
Proof.
  cbv zeta. split; [|split; [|split; [|split]]];
    try (vm_compute; reflexivity).
  vm_compute. discriminate.
Qed.

End GateFacts.

(** ** Capacity after reconciliation *)

Module Capacity.
Import Keywise Props FmtFacts Reconciled KeywiseFacts.


Section Invariant.
Variable K : string.
Variable P : Worker.t -> Prop.
Hypothesis P_mark : forall w, P w -> P (mark w).
Hypothesis P_fresh : forall g i, K = Fmt.worker_id (WorkerGroup.name g) i -> P (fresh g i).

Lemma group_inv o g : opt_all P o -> opt_all P (group K o g).
Proof.
  intros H. unfold group.
  apply Steps.fold_left_inv.
  - intros a i _ Ha. unfold remove. destruct (_ =? _); auto.
    destruct a; simpl in *; auto.
  - apply Steps.fold_left_inv; auto.
    intros a i _ Ha. unfold create.
    destruct (String.eqb_spec (Fmt.worker_id (WorkerGroup.name g) i) K); auto.
    destruct a; simpl in *; auto.
Qed.

Lemma reconciled_inv gs o :
  opt_all P (only_alive o) -> opt_all P (reconciled gs K o).
Proof.
  intros H. unfold reconciled, unstale.
  assert (G : opt_all P (fold_left (group K) gs (only_alive o))).
  { apply Steps.fold_left_inv; auto. intros; now apply group_inv. }
  destruct (fold_left (group K) gs (only_alive o)) as [w|]; simpl in *; auto.
  destruct (stale _ _ w); auto.
Qed.
End Invariant.

(** Everything in the pool after reconciliation is alive. *)
Lemma init_alive f k h :
  Pool.get k (worker_threads (init_worker_threads f)) = Some h ->
  Worker.is_alive h = true.
Proof.
  rewrite init_worker_threads_get. intros E.
  assert (G : opt_all (fun w => Worker.is_alive w = true)
                      (reconciled (worker_groups f) k
                                  (Pool.get k (worker_threads f)))).
  { apply reconciled_inv; auto.
    destruct (Pool.get k (worker_threads f)) as [w|]; simpl; auto.
    destruct (Worker.is_alive w) eqn:A; simpl; auto. }
  rewrite E in G. exact G.
Qed.

(** Keys and names stay derived from a group name and an index. *)
Lemma init_derived f :
  derived (worker_threads f) -> derived (worker_threads (init_worker_threads f)).
Proof.
  intros D k h. rewrite init_worker_threads_get. intros E.
  assert (G : opt_all (fun w => exists nm i, k = Fmt.worker_id nm i
                                             /\ Worker.name w = Fmt.worker_name nm i)
                      (reconciled (worker_groups f) k
                                  (Pool.get k (worker_threads f)))).
  { apply reconciled_inv; auto.
    - intros g i ->. now exists (WorkerGroup.name g), i.
    - destruct (Pool.get k (worker_threads f)) as [w|] eqn:Ew; simpl; auto.
      destruct (Worker.is_alive w); simpl; eauto. }
  rewrite E in G. exact G.
Qed.

(** A handle that was in the pool and alive is kept, at most marked. *)
Lemma remove_loop_some g K l w :
  fold_left (remove g K) l (Some w) = Some w
  \/ fold_left (remove g K) l (Some w) = Some (mark w).
Proof.
  revert w. induction l as [|j l IH]; simpl; intros w; auto.
  unfold remove at 2 4. destruct (_ =? _); simpl; auto.
  destruct (IH (mark w)) as [E|E]; rewrite E; auto.
Qed.

Lemma group_some K w g :
  group K (Some w) g = Some w \/ group K (Some w) g = Some (mark w).
Proof. unfold group. rewrite create_loop_some. apply remove_loop_some. Qed.

Lemma groups_some K gs w :
  fold_left (group K) gs (Some w) = Some w
  \/ fold_left (group K) gs (Some w) = Some (mark w).
Proof.
  revert w. induction gs as [|g gs IH]; simpl; intros w; auto.
  destruct (group_some K w g) as [E|E]; rewrite E; auto.
  destruct (IH (mark w)) as [E'|E']; rewrite E'; auto.
Qed.

Lemma reconciled_some gs K o w :
  only_alive o = Some w ->
  reconciled gs K o = Some w \/ reconciled gs K o = Some (mark w).
Proof.
  intros E. unfold reconciled. rewrite E.
  destruct (groups_some K gs w) as [E'|E']; rewrite E'; simpl.
  - destruct (stale _ _ w); auto.
  - rewrite stale_mark. destruct (stale _ _ w); auto.
Qed.

(** *** The entries of one group, when group names are unique *)

Section OneGroup.
Variable f : Foreman.
Variable g : WorkerGroup.t.
Hypothesis names_unique : unique_names (worker_groups f).
Hypothesis g_in_store : In g (worker_groups f).

Let ids := expected_ids (worker_groups f) [].
Let names := expected_names (worker_groups f) [].

Lemma own_name_expected i :
  Py.mem_str (Fmt.worker_name (WorkerGroup.name g) i) names = true
  <-> i < WorkerGroup.number_of_workers g.
Proof.
  unfold names. rewrite mem_str_In, expected_names_In. split.
  - intros [[g' [j [Hg [Hj E]]]]|[]].
    apply worker_name_inj in E as [E ->].
    now rewrite <- (same_group _ _ _ names_unique g_in_store Hg (eq_sym E)).
  - intros H. left. now exists g, i.
Qed.

Lemma own_id_expected : Py.mem_nat (WorkerGroup.id g) ids = true.
Proof.
  unfold ids. rewrite mem_nat_In, expected_ids_In. left. now apply in_map.
Qed.

Lemma at_own_key i o :
  reconciled (worker_groups f) (Fmt.worker_id (WorkerGroup.name g) i) o
  = unstale ids names
            (group (Fmt.worker_id (WorkerGroup.name g) i) (only_alive o) g).
Proof. unfold reconciled. now rewrite groups_own. Qed.

Lemma fresh_not_stale i :
  i < WorkerGroup.number_of_workers g -> stale ids names (fresh g i) = false.
Proof.
  intros H. unfold stale. simpl.
  rewrite own_id_expected. simpl.
  apply own_name_expected in H. now rewrite H.
Qed.

(** C1, as amended: after [init_worker_threads], for a group of a
    store with unique group names and a pool whose keys and names are
    derived from group names, the pool holds a live handle at every
    derived id below [number_of_workers]; that handle is not redundant
    when the id was free before the run, or held by a dead handle, or
    held by a non-redundant handle of a group of the store; and every
    handle of the group at an index from [number_of_workers] on has
    been marked redundant. *)
Theorem init_worker_threads_capacity :
  derived (worker_threads f) ->
  capacity (reusable f) g (worker_threads (init_worker_threads f)).
Proof.
  intros D. split.
  - intros i Hi. rewrite init_worker_threads_get, at_own_key.
    rewrite group_below by assumption.
    unfold reusable.
    destruct (Pool.get (Fmt.worker_id (WorkerGroup.name g) i) (worker_threads f))
      as [w|] eqn:E; simpl.
    + destruct (Worker.is_alive w) eqn:A; simpl.
      * exists (if stale ids names w then mark w else w).
        split; auto. split; [now destruct (stale ids names w)|].
        intros R. destruct (R eq_refl) as [Rn Rg].
        assert (S : stale ids names w = false).
        { unfold stale. apply orb_false_iff. split; apply negb_false_iff.
          - unfold ids. rewrite mem_nat_In, expected_ids_In. auto.
          - destruct (D _ _ E) as [nm [j [Ek En]]].
            apply worker_id_inj in Ek as [<- <-]. rewrite En.
            now apply own_name_expected. }
        now rewrite S.
      * exists (fresh g i). rewrite fresh_not_stale by assumption. auto.
    + exists (fresh g i). rewrite fresh_not_stale by assumption. auto.
  - intros i h Hi. rewrite init_worker_threads_get, at_own_key.
    destruct (Nat.lt_ge_cases i 12) as [L|L].
    + rewrite group_shrunk by assumption.
      destruct (only_alive _) as [w|]; simpl; [|discriminate].
      rewrite stale_mark. intros E. injection E as <-.
      destruct (stale ids names w); discriminate.
    + rewrite group_beyond by assumption.
      destruct (Pool.get (Fmt.worker_id (WorkerGroup.name g) i) (worker_threads f))
        as [w|] eqn:E; simpl; [|discriminate].
      destruct (Worker.is_alive w); simpl; [|discriminate].
      assert (S : stale ids names w = true).
      { unfold stale. apply orb_true_iff. right. apply negb_true_iff.
        destruct (D _ _ E) as [nm [j [Ek En]]].
        apply worker_id_inj in Ek as [<- <-]. rewrite En.
        destruct (Py.mem_str _ names) eqn:M; auto.
        apply own_name_expected in M. lia. }
      rewrite S. intros E'. injection E' as <-. discriminate.
Qed.

End OneGroup.

End Capacity.

Module CapacityRuns.
Import Props Examples Examples3.

Lemma derived_modify k (F : Worker.t -> Worker.t) p :
  (forall w, Worker.name (F w) = Worker.name w) ->
  derived p -> derived (Pool.modify k F p).
Proof.
  intros HF D K w. rewrite PoolFacts.get_modify.
  destruct (k =? K); [|apply D].
  destruct (Pool.get K p) as [w0|] eqn:E; simpl; [|discriminate].
  intros H. injection H as <-. rewrite HF. now apply D.
Qed.

Lemma derived_assign_task task f :
  derived (worker_threads f) -> derived (worker_threads (assign_task task f)).
Proof.
  intros D. unfold assign_task.
  destruct (find _ (worker_threads f)) as [[k w]|]; auto.
  simpl. now apply derived_modify.
Qed.

Lemma derived_started n schedules : derived (worker_threads (started n schedules)).
Proof.
  unfold started. apply Capacity.init_derived.
  intros k w H. discriminate H.
Qed.

Lemma pool_set_worker_groups gs f :
  worker_threads (set_worker_groups gs f) = worker_threads f.
Proof. reflexivity. Qed.

Lemma derived_lowered : derived (worker_threads lowered).
Proof.
  unfold lowered. rewrite pool_set_worker_groups. apply derived_started.
Qed.

Lemma derived_regrown : derived (worker_threads regrown).
Proof.
  unfold regrown. rewrite pool_set_worker_groups. unfold shrunk.
  apply Capacity.init_derived. rewrite pool_set_worker_groups.
  unfold busy. apply derived_assign_task, derived_started.
Qed.

Lemma one_name (nm : string) : NoDup [nm].
Proof. constructor; [intros [] | constructor]. Qed.

(** Lowering the count of a two-worker group to 1 and reconciling. *)
Lemma init_worker_threads_capacity_witness :
  unique_names (worker_groups lowered)
  /\ In (default_group 1 []) (worker_groups lowered)
  /\ derived (worker_threads lowered)
  /\ capacity (reusable lowered) (default_group 1 [])
              (worker_threads (init_worker_threads lowered)).
Proof.
  assert (U : unique_names (worker_groups lowered)) by apply one_name.
  assert (I : In (default_group 1 []) (worker_groups lowered))
    by (left; reflexivity).
  split; [exact U|]. split; [exact I|]. split; [exact derived_lowered|].
  exact (Capacity.init_worker_threads_capacity
           lowered (default_group 1 []) U I derived_lowered).
Defined.

Example lowered_pool :
  map (fun kv => (fst kv, Worker.redundant (snd kv)))
      (worker_threads (init_worker_threads lowered))
  = [("default-0", None); ("default-1", Some true)].
Proof. vm_compute. reflexivity. Qed.

Example regrown_pool :
  map (fun kv => (fst kv, Worker.redundant (snd kv), Worker.current_task (snd kv)))
      (worker_threads (init_worker_threads regrown))
  = [("default-0", Some false, Some 7)].
Proof. vm_compute. reflexivity. Qed.

(** The capacity property without the side condition fails: the busy
    worker of a one-worker group was marked redundant-pending while the
    count was 0; with the count back at 1 reconciliation finds its id
    taken and creates nothing, so the only handle of the group is a
    redundant one. *)
Lemma capacity_fails_on_redundant_handle :
  unique_names (worker_groups regrown)
  /\ In (default_group 1 []) (worker_groups regrown)
  /\ WorkerGroup.number_of_workers (default_group 1 []) <= 12
  /\ derived (worker_threads regrown)
  /\ ~ capacity (fun _ => True) (default_group 1 [])
                (worker_threads (init_worker_threads regrown)).
Proof.
  split; [apply one_name |].
  split; [left; reflexivity |].
  split; [simpl; lia |].
  split; [exact derived_regrown |].
  intros [H _]. destruct (H 0) as [h [Hg [_ Hr]]]; [simpl; lia|].
  vm_compute in Hg. injection Hg as <-.
  specialize (Hr I). discriminate.
Qed.

End CapacityRuns.

(** ** Reconciling twice *)

Module Idempotent.
Import Keywise Props FmtFacts Reconciled KeywiseFacts Steps.

(** *** The keys of the pool stay distinct *)


Lemma mark_distinct k imm f :
  distinct_keys f -> distinct_keys (mark_worker_thread_as_redundant k imm f).
Proof.
  unfold distinct_keys. now rewrite mark_pool, PoolFacts.keys_modify.
Qed.

Lemma prune_distinct f : distinct_keys f -> distinct_keys (prune_dead_threads f).
Proof.
  unfold prune_dead_threads. apply fold_left_inv. intros a k _ Ha.
  destruct (Pool.get k (worker_threads a)) as [w|]; auto.
  destruct (Worker.is_alive w); simpl; auto.
  now apply PoolFacts.NoDup_delitem.
Qed.

Lemma create_thread_distinct g r i :
  distinct_keys (foreman r) -> distinct_keys (foreman (create_thread g r i)).
Proof.
  unfold create_thread.
  destruct (Pool.contains _ _) eqn:C; simpl; auto.
  intros H. now apply PoolFacts.NoDup_setitem_new.
Qed.

Lemma remove_thread_distinct g f i :
  distinct_keys f -> distinct_keys (remove_thread g f i).
Proof.
  unfold remove_thread. destruct (Pool.get _ _); auto. apply mark_distinct.
Qed.

Lemma remove_stale_distinct ids names f k :
  distinct_keys f -> distinct_keys (remove_stale ids names f k).
Proof.
  unfold remove_stale. destruct (Pool.get _ _); auto.
  destruct (_ || _); auto. apply mark_distinct.
Qed.

Lemma reconcile_group_distinct r g :
  distinct_keys (foreman r) -> distinct_keys (foreman (reconcile_group r g)).
Proof.
  intros H. unfold reconcile_group. cbn [foreman].
  apply fold_left_inv; [intros; now apply remove_thread_distinct|].
  refine (fold_left_inv (fun r => distinct_keys (foreman r)) _ _ _
                        (mkReconcile _ _ _) H).
  intros; now apply create_thread_distinct.
Qed.

Lemma init_distinct f : distinct_keys f -> distinct_keys (init_worker_threads f).
Proof.
  intros H. unfold init_worker_threads.
  apply fold_left_inv; [intros; now apply remove_stale_distinct|].
  refine (fold_left_inv (fun r => distinct_keys (foreman r)) _ _ _
                        (mkReconcile _ _ _) (prune_distinct _ H)).
  intros; now apply reconcile_group_distinct.
Qed.

(** *** What the pool looks like after one run *)

Section AfterOneRun.
Variable f : Foreman.
Hypothesis names_unique : unique_names (worker_groups f).

Let ids := expected_ids (worker_groups f) [].
Let names := expected_names (worker_groups f) [].
Let pool1 := worker_threads (init_worker_threads f).

Lemma wanted_present g i :
  In g (worker_groups f) -> i < WorkerGroup.number_of_workers g ->
  Pool.contains (Fmt.worker_id (WorkerGroup.name g) i) pool1 = true.
Proof.
  intros Hg Hi. unfold Pool.contains, pool1.
  rewrite init_worker_threads_get, Capacity.at_own_key by assumption.
  rewrite group_below by assumption.
  destruct (only_alive _); reflexivity.
Qed.

Lemma extra_marked g i w :
  In g (worker_groups f) -> WorkerGroup.number_of_workers g <= i -> i < 12 ->
  Pool.get (Fmt.worker_id (WorkerGroup.name g) i) pool1 = Some w ->
  Worker.redundant w = Some (Worker.idle w).
Proof.
  intros Hg Hi Hj. unfold pool1.
  rewrite init_worker_threads_get, Capacity.at_own_key by assumption.
  rewrite group_shrunk by assumption.
  destruct (only_alive _) as [w0|]; simpl; [|discriminate].
  rewrite stale_mark. intros E. injection E as <-.
  now destruct (stale _ _ w0).
Qed.

Lemma stale_marked k w :
  Pool.get k pool1 = Some w -> stale ids names w = true ->
  Worker.redundant w = Some (Worker.idle w).
Proof.
  unfold pool1. rewrite init_worker_threads_get. unfold reconciled.
  destruct (fold_left (group k) (worker_groups f) (only_alive _)) as [w0|];
    simpl; [|discriminate].
  fold ids names. intros E. injection E as <-.
  destruct (stale ids names w0) eqn:S.
  - reflexivity.
  - congruence.
Qed.

End AfterOneRun.

(** *** The second run *)

(** Marking a handle in the mode it is already marked in changes nothing. *)
Lemma set_redundant_again imm w :
  Worker.redundant w = Some imm -> Worker.set_redundant imm w = w.
Proof. destruct w; simpl; intros ->; reflexivity. Qed.


Lemma settled_refl f1 : settled f1 f1.
Proof. repeat split; auto using frame_refl, emits_refl; apply frame_refl. Qed.

Lemma mark_settled f1 f' k w :
  distinct_keys f1 -> settled f1 f' ->
  Pool.get k (worker_threads f1) = Some w ->
  Worker.redundant w = Some (Worker.idle w) ->
  settled f1 (mark_worker_thread_as_redundant k (Worker.idle w) f').
Proof.
  intros ND (Ep & Fr & Em) Hg Hr. split; [|split].
  - rewrite mark_pool, Ep. apply PoolFacts.modify_fixed.
    intros w' Hin. apply (PoolFacts.In_get _ _ _ ND) in Hin.
    rewrite Hg in Hin. injection Hin as <-.
    now apply set_redundant_again.
  - eapply frame_trans; [exact Fr | apply mark_frame].
  - eapply emits_trans; [exact Em|]. apply mark_emits.
    intros w' Hw'. rewrite Ep, Hg in Hw'. injection Hw' as <-. exact Hr.
Qed.

(** C6: with unique group names and a pool with distinct keys, a
    second run of [init_worker_threads] right after the first leaves the
    pool and every handle in it as the first run left them, starts no
    worker, and marks no handle that is not already redundant in that
    very mode; every other field of the Foreman is untouched as well. *)
Theorem init_worker_threads_idempotent f :
  unique_names (worker_groups f) ->
  NoDup (Pool.keys (worker_threads f)) ->
  worker_threads (init_worker_threads (init_worker_threads f))
  = worker_threads (init_worker_threads f)
  /\ frame (init_worker_threads f) (init_worker_threads (init_worker_threads f))
  /\ emits nothing_new (init_worker_threads f)
           (init_worker_threads (init_worker_threads f)).
Proof.
  intros U ND.
  set (f1 := init_worker_threads f).
  assert (ND1 : distinct_keys f1) by (now apply init_distinct).
  assert (G1 : worker_groups f1 = worker_groups f)
    by (destruct (Frames.init_worker_threads_frame f) as (_&_&_&_&_&_&E); exact E).
  change (settled f1 (init_worker_threads f1)).
  unfold init_worker_threads at 1.
  (* pruning finds every handle alive *)
  assert (S0 : settled f1 (prune_dead_threads f1)).
  { unfold prune_dead_threads.
    apply (fold_left_inv (settled f1)); [|apply settled_refl].
    intros a k _ Ha.
    destruct (Pool.get k (worker_threads a)) as [w|] eqn:E; auto.
    pose proof Ha as (Ep & _). rewrite Ep in E. unfold f1 in E.
    apply Capacity.init_alive in E. now rewrite E. }
  assert (G0 : worker_groups (prune_dead_threads f1) = worker_groups f).
  { destruct S0 as (_ & (_&_&_&_&_&_&E) & _). congruence. }
  (* the groups: nothing to create, marked handles are marked already *)
  rewrite G0.
  set (r0 := mkReconcile (prune_dead_threads f1) [] []).
  assert (S1 : settled f1 (foreman (fold_left reconcile_group (worker_groups f) r0))).
  { apply (fold_left_inv (fun r => settled f1 (foreman r))); [|exact S0].
    intros r g Hg Hr.
    unfold reconcile_group. cbn [foreman].
    apply (fold_left_inv (settled f1)).
    - intros a i Hi Ha. apply in_range in Hi.
      unfold remove_thread.
      destruct (Pool.get _ (worker_threads a)) as [w|] eqn:E; auto.
      destruct Ha as (Ep & Ha'). rewrite Ep in E.
      apply mark_settled; auto; [now split|].
      apply (extra_marked f U g i); auto; lia.
    - refine (fold_left_inv (fun r => settled f1 (foreman r)) _ _ _
                            (mkReconcile _ _ _) Hr).
      intros a i Hi Ha. apply in_range in Hi.
      unfold create_thread.
      pose proof Ha as (Ep & _).
      assert (W : Pool.contains (Fmt.worker_id (WorkerGroup.name g) i)
                                (worker_threads f1) = true)
        by (apply (wanted_present f U g i); auto; lia).
      rewrite Ep, W. exact Ha. }
  (* the last loop *)
  destruct (reconcile_groups_sets (worker_groups f) r0) as [Ei En].
  rewrite Ei, En. cbn [worker_group_ids worker_group_names r0].
  apply (fold_left_inv (settled f1)); [|exact S1].
  intros a k _ Ha. unfold remove_stale.
  destruct (Pool.get k (worker_threads a)) as [w|] eqn:E; auto.
  fold (stale (expected_ids (worker_groups f) []) (expected_names (worker_groups f) []) w).
  destruct (stale _ _ w) eqn:S; auto.
  destruct Ha as (Ep & Ha'). rewrite Ep in E.
  apply mark_settled; auto; [now split|].
  now apply (stale_marked f k w).
Qed.

End Idempotent.

(** ** What never touches the signals or hands out work *)

Module Quiet.
Import Props Steps.


Lemma quiet_refl f : quiet f f.
Proof. split; [apply same_signals_refl | apply emits_refl]. Qed.

Lemma quiet_trans f g h : quiet f g -> quiet g h -> quiet f h.
Proof.
  intros [S1 E1] [S2 E2]. split.
  - eapply same_signals_trans; eauto.
  - eapply emits_trans; eauto.
Qed.


Lemma quiet_call c f f' : no_add_work c -> quiet f f' -> quiet f (call c f').
Proof.
  intros Hc [S E]. split; [exact S|].
  eapply emits_trans; [exact E|]. now apply emits_call.
Qed.






Lemma mark_quiet k imm f : quiet f (mark_worker_thread_as_redundant k imm f).
Proof.
  split; [apply frame_signals, mark_frame|].
  apply mark_emits. intros; exact I.
Qed.





Lemma terminate_worker_thread_quiet k f : quiet f (snd (terminate_worker_thread k f)).
Proof.
  unfold terminate_worker_thread.
  destruct (Pool.get k _) as [w|]; simpl.
  - eapply quiet_trans; [|apply mark_quiet].
    apply quiet_call; [exact I|]. apply quiet_refl.
  - apply quiet_call; [exact I|]. apply quiet_call; [exact I|]. apply quiet_refl.
Qed.







Section WithDigest.
Variable digest : Library.settings -> string.



End WithDigest.

End Quiet.

(** ** Stopping, terminating and the dispatch loop *)

Module Shutdown.
Import Keywise Props Steps KeywiseFacts.

(** *** The marking loop of [stop] *)


Lemma pending_twice o :
  option_map (Worker.set_redundant false) (option_map (Worker.set_redundant false) o)
  = option_map (Worker.set_redundant false) o.
Proof. now destruct o. Qed.

Lemma marks_get K f0 :
  Pool.get K (worker_threads
                (fold_left mark_pending (Pool.keys (worker_threads f0)) f0))
  = option_map (Worker.set_redundant false) (Pool.get K (worker_threads f0)).
Proof.
  rewrite (fold_get (fun f => f) _
             (fun o k => if k =? K then option_map (Worker.set_redundant false) o
                         else o))
    by (intros; apply mark_get).
  rewrite keyed_fold by apply pending_twice.
  now apply over_all_keys.
Qed.



Lemma marks_emits ks f0 : emits pending_marking f0 (fold_left mark_pending ks f0).
Proof.
  apply emits_fold. intros a k _. apply mark_emits. intros; exact I.
Qed.


Lemma stop_unfold f :
  stop f = fold_left mark_pending (Pool.keys (worker_threads (signalled f)))
                     (signalled f).
Proof. reflexivity. Qed.




Lemma stop_get K f :
  Pool.get K (worker_threads (stop f))
  = option_map (Worker.set_redundant false) (Pool.get K (worker_threads f)).
Proof. rewrite stop_unfold. now rewrite marks_get. Qed.

Lemma stop_calls f :
  exists marks,
    calls (stop f) = calls f ++ Semaphore_release :: Pending_shutdown true :: marks
    /\ Forall pending_marking marks.
Proof.
  rewrite stop_unfold.
  destruct (marks_emits (Pool.keys (worker_threads (signalled f))) (signalled f))
    as [marks [E F]].
  exists marks. split; auto. rewrite E. simpl.
  now rewrite <- !app_assoc.
Qed.


(** *** Running handles *)

Lemma still_running_same w :
  Worker.idle w = false -> Worker.is_alive w = true -> still_running w w.
Proof. unfold still_running. auto. Qed.

Lemma still_running_pending w :
  Worker.idle w = false -> Worker.is_alive w = true ->
  still_running w (Worker.set_redundant false w).
Proof. unfold still_running. simpl. auto. Qed.

Lemma init_keeps_running f : keeps_running f (init_worker_threads f).
Proof.
  intros k w E Hi Ha. rewrite init_worker_threads_get, E.
  destruct (Capacity.reconciled_some (worker_groups f) k (Some w) w) as [R|R].
  - simpl. now rewrite Ha.
  - rewrite R. eauto using still_running_same.
  - rewrite R. exists (mark w). split; auto.
    unfold mark. rewrite Hi. now apply still_running_pending.
Qed.

Lemma terminate_get K k f :
  Pool.get K (worker_threads (snd (terminate_worker_thread k f)))
  = if k =? K
    then option_map (Worker.set_redundant false) (Pool.get K (worker_threads f))
    else Pool.get K (worker_threads f).
Proof.
  unfold terminate_worker_thread. cbn [worker_threads call].
  destruct (Pool.get k (worker_threads f)) as [w|] eqn:E; cbn [snd].
  - now rewrite mark_get.
  - cbn [worker_threads call].
    destruct (String.eqb_spec k K) as [->|]; auto. now rewrite E.
Qed.

Lemma terminate_emits (P : Call -> Prop) k f :
  (forall l m, P (Log l m)) ->
  (forall w, P (Worker_set_redundant k w false)) ->
  emits P f (snd (terminate_worker_thread k f)).
Proof.
  intros PL PM. unfold terminate_worker_thread. cbn [worker_threads call].
  destruct (Pool.get k (worker_threads f)) as [w|] eqn:E; cbn [snd].
  - unfold mark_worker_thread_as_redundant. cbn [worker_threads call]. rewrite E.
    eexists. split; [cbn [calls call set_worker_threads];
                     rewrite <- app_assoc; reflexivity|].
    repeat constructor; auto.
  - eexists. split; [cbn [calls call]; rewrite <- app_assoc; reflexivity|].
    repeat constructor; auto.
Qed.

Lemma safe_pending c : pending_marking c -> safe_marking c.
Proof. destruct c; simpl; try tauto. destruct immediate; [tauto | discriminate]. Qed.

(** As long as no other thread acts between the statements of these
    methods: none of pool reconciliation, [terminate_worker_thread] and
    [stop] marks a handle redundant in immediate mode unless the handle
    is idle when it is marked; and a handle that is alive and running a
    task before any of them is still in the pool afterwards, alive, on
    the same task, its redundancy either unchanged or pending. *)
Theorem running_workers_survive (f : Foreman) (worker_id : string) :
  (emits safe_marking f (init_worker_threads f)
   /\ keeps_running f (init_worker_threads f))
  /\ (emits safe_marking f (snd (terminate_worker_thread worker_id f))
      /\ keeps_running f (snd (terminate_worker_thread worker_id f)))
  /\ (emits safe_marking f (stop f) /\ keeps_running f (stop f)).
Proof.
  split; [|split].
  - split; [|apply init_keeps_running].
    apply Frames.init_worker_threads_emits; simpl; auto.
  - split.
    + apply terminate_emits; simpl; auto. discriminate.
    + intros k w E Hi Ha. rewrite terminate_get, E.
      destruct (worker_id =? k); simpl;
        eauto using still_running_same, still_running_pending.
  - split.
    + destruct (stop_calls f) as [marks [E F]].
      exists (Semaphore_release :: Pending_shutdown true :: marks).
      split; auto. repeat constructor.
      eapply Forall_impl; [|exact F]. apply safe_pending.
    + intros k w E Hi Ha. rewrite stop_get, E. simpl.
      eauto using still_running_pending.
Qed.

(** *** A pass of the loop that finds no task *)


End Shutdown.

(** ** Marking while the monitor loop dispatches *)

Module BetweenFacts.
Import Props Between Examples Examples5 Examples6.

Lemma fold_left_ext {A B} (f g : A -> B -> A) (l : list B) (a : A) :
  (forall a x, f a x = g a x) -> fold_left f l a = fold_left g l a.
Proof.
  intros H. revert a. induction l as [|x l IH]; simpl; intros a; auto.
  now rewrite H, IH.
Qed.

(** With nothing in between, the two statements are the loop body. *)
Lemma remove_thread_alone g f i :
  remove_thread_between (fun f => f) g f i = remove_thread g f i.
Proof.
  unfold remove_thread_between, remove_thread, read_idle.
  now destruct (Pool.get _ (worker_threads f)).
Qed.

Lemma reconcile_group_alone at_index r g :
  reconcile_group_between (fun f => f) at_index r g = reconcile_group r g.
Proof.
  unfold reconcile_group_between, reconcile_group. f_equal.
  apply fold_left_ext. intros a i.
  rewrite remove_thread_alone. now destruct (Nat.eqb i at_index).
Qed.

Lemma init_worker_threads_alone at_index f :
  init_worker_threads_between (fun f => f) at_index f = init_worker_threads f.
Proof.
  unfold init_worker_threads_between, init_worker_threads.
  rewrite (fold_left_ext (reconcile_group_between (fun f => f) at_index)
                         reconcile_group)
    by (intros; apply reconcile_group_alone).
  reflexivity.
Qed.

(** Run on its own, reconciliation marks the idle worker immediate, and
    the busy worker pending. *)
Example marked_in_turn :
  map (fun kv => Worker.redundant (snd kv))
      (worker_threads (init_worker_threads to_shrink)) = [Some true]
  /\ map (fun kv => Worker.redundant (snd kv))
         (worker_threads (init_worker_threads (dispatch_7 to_shrink))) = [Some false].
Proof. split; vm_compute; reflexivity. Qed.

(** C2 (the code departs from it): the count of a one-worker group has
    been lowered to 0 while its worker is idle.  Reconciliation reads the
    idle flag of the worker, the monitor loop then hands task 7 to that
    worker, which accepts work, and reconciliation goes on to call
    [set_redundant] with the flag it read: the worker is running task 7
    and is marked redundant in immediate mode, by a call made on a handle
    that is not idle. *)
Theorem marked_immediate_while_running :
  read_idle "default-0" to_shrink = Some true
  /\ Pool.get "default-0" (worker_threads to_shrink) = Some worker_0
  /\ Worker.can_accept_work worker_0 = true
  /\ worker_threads (dispatch_7 to_shrink) = [("default-0", busy_0)]
  /\ worker_threads
       (remove_thread_between dispatch_7 (default_group 0 []) to_shrink 0)
     = [("default-0", Worker.set_redundant true busy_0)]
  /\ Worker.idle busy_0 = false
  /\ Worker.current_task busy_0 = Some 7
  /\ In (Worker_set_redundant "default-0" busy_0 true)
        (calls (init_worker_threads_between dispatch_7 0 to_shrink))
  /\ ~ safe_marking (Worker_set_redundant "default-0" busy_0 true).
Proof.
  split; [vm_compute; reflexivity|].
  split; [vm_compute; reflexivity|].
  split; [vm_compute; reflexivity|].
  split; [vm_compute; reflexivity|].
  split; [vm_compute; reflexivity|].
  split; [reflexivity|].
  split; [reflexivity|].
  split.
  - assert (E : calls (init_worker_threads_between dispatch_7 0 to_shrink)
                = calls to_shrink
                  ++ [Worker_add_work worker_0 7;
                      Worker_set_redundant "default-0" busy_0 true;
                      Worker_set_redundant "default-0"
                        (Worker.set_redundant true busy_0) false])
      by (vm_compute; reflexivity).
    rewrite E. apply in_or_app. right. right. left. reflexivity.
  - intros H. specialize (H eq_refl). discriminate H.
Qed.

End BetweenFacts.

(** ** The theorems at work on concrete pools *)

Module Runs.
Import Props Steps Examples Examples3 Examples4.

Lemma lowered_keys : Pool.keys (worker_threads lowered) = ["default-0"; "default-1"].
Proof. vm_compute. reflexivity. Qed.

(** Reconciling twice after lowering the count of a two-worker group. *)
Lemma init_worker_threads_idempotent_witness :
  worker_threads (init_worker_threads (init_worker_threads lowered))
  = worker_threads (init_worker_threads lowered)
  /\ frame (init_worker_threads lowered)
           (init_worker_threads (init_worker_threads lowered))
  /\ emits nothing_new (init_worker_threads lowered)
           (init_worker_threads (init_worker_threads lowered)).
Proof.
  apply (Idempotent.init_worker_threads_idempotent lowered).
  - apply CapacityRuns.one_name.
  - rewrite lowered_keys.
    constructor; [simpl; intros [E|[]]; discriminate E|].
    apply CapacityRuns.one_name.
Defined.

(** The second run does make calls: the extra worker is marked again by
    the loop over the indices and by the last loop, in the mode it has. *)
Example second_run_marks_again :
  List.length (calls (init_worker_threads (init_worker_threads lowered)))
  = 2 + List.length (calls (init_worker_threads lowered)).
Proof. vm_compute. reflexivity. Qed.


End Runs.

(** ** More on pruning and reconciliation *)

Module PoolExtras.
Import Props Keywise Steps KeywiseFacts Reconciled FmtFacts.

(** *** Identity of workers *)

(** X1: Two (group name, index) pairs share a worker id, or a worker name,
    only when they are the same pair. *)
Theorem worker_identity_injective (n m : string) (i j : nat) :
  (Fmt.worker_id n i = Fmt.worker_id m j <-> n = m /\ i = j)
  /\ (Fmt.worker_name n i = Fmt.worker_name m j <-> n = m /\ i = j).
Proof.
  split; split.
  - apply worker_id_inj.
  - now intros [-> ->].
  - apply worker_name_inj.
  - now intros [-> ->].
Qed.

(** *** Pruning is a filter *)

Lemma filter_all {A} (P : A -> bool) (l : list A) :
  (forall x, In x l -> P x = true) -> filter P l = l.
Proof.
  induction l as [|a l IH]; simpl; intros H; auto.
  rewrite H by auto. f_equal. apply IH. auto.
Qed.

Lemma filter_filter {A} (P Q : A -> bool) (l : list A) :
  filter Q (filter P l) = filter (fun x => P x && Q x) l.
Proof.
  induction l as [|a l IH]; simpl; auto.
  destruct (P a); simpl; [destruct (Q a); simpl; congruence | auto].
Qed.

Lemma NoDup_keys_filter (P : string * Worker.t -> bool) (p : Pool.t) :
  NoDup (Pool.keys p) -> NoDup (Pool.keys (filter P p)).
Proof.
  induction p as [|[a w] p IH]; simpl; auto.
  intros ND. inversion ND as [|? ? Hn ND']; subst.
  destruct (P (a, w)); simpl; auto.
  constructor; auto. intros Hin. apply Hn.
  unfold Pool.keys in *. apply in_map_iff in Hin as [[b x] [E Hb]].
  simpl in E. subst b. apply filter_In in Hb as [Hb _].
  change a with (fst (a, x)). now apply in_map.
Qed.

Lemma prune_step_filter (k : string) (p : Pool.t) :
  NoDup (Pool.keys p) ->
  match Pool.get k p with
  | Some w => if negb (Worker.is_alive w) then Pool.delitem k p else p
  | None => p
  end = filter (alive_or_other k) p.
Proof.
  intros ND. destruct (Pool.get k p) as [w|] eqn:E.
  - destruct (Worker.is_alive w) eqn:A; simpl.
    + symmetry. apply filter_all. intros [a x] Hin. unfold alive_or_other. simpl.
      destruct (String.eqb_spec a k) as [->|]; auto. simpl.
      apply (PoolFacts.In_get _ _ _ ND) in Hin. congruence.
    + unfold Pool.delitem. apply filter_ext_in. intros [a x] Hin.
      unfold alive_or_other. simpl.
      destruct (String.eqb_spec a k) as [->|]; auto. simpl.
      apply (PoolFacts.In_get _ _ _ ND) in Hin. congruence.
  - symmetry. apply filter_all. intros [a x] Hin. unfold alive_or_other. simpl.
    destruct (String.eqb_spec a k) as [->|]; auto. simpl.
    apply PoolFacts.get_None in E. exfalso. apply E.
    change k with (fst (k, x)). now apply in_map.
Qed.

Lemma prune_loop_filter (ks : list string) (f : Foreman) :
  NoDup (Pool.keys (worker_threads f)) ->
  worker_threads
    (fold_left
       (fun f thread =>
          match Pool.get thread (worker_threads f) with
          | Some w =>
              if negb (Worker.is_alive w)
              then set_worker_threads (Pool.delitem thread (worker_threads f)) f
              else f
          | None => f
          end) ks f)
  = filter (fun kv => forallb (fun k => alive_or_other k kv) ks) (worker_threads f).
Proof.
  revert f. induction ks as [|k ks IH]; simpl; intros f ND.
  - symmetry. now apply filter_all.
  - rewrite IH.
    + assert (E : worker_threads
                    match Pool.get k (worker_threads f) with
                    | Some w =>
                        if negb (Worker.is_alive w)
                        then set_worker_threads (Pool.delitem k (worker_threads f)) f
                        else f
                    | None => f
                    end = filter (alive_or_other k) (worker_threads f)).
      { rewrite <- (prune_step_filter k _ ND).
        destruct (Pool.get k (worker_threads f)) as [w|]; auto.
        now destruct (negb (Worker.is_alive w)). }
      rewrite E. apply filter_filter.
    + destruct (Pool.get k (worker_threads f)) as [w|]; auto.
      destruct (negb (Worker.is_alive w)); auto.
      simpl. now apply PoolFacts.NoDup_delitem.
Qed.

(** X2: [prune_dead_threads] keeps exactly the handles that are alive, in
    their order and unchanged, makes no call and touches nothing else. *)
Theorem prune_dead_threads_filter (f : Foreman) :
  NoDup (Pool.keys (worker_threads f)) ->
  worker_threads (prune_dead_threads f)
  = filter (fun kv => Worker.is_alive (snd kv)) (worker_threads f)
  /\ calls (prune_dead_threads f) = calls f
  /\ frame f (prune_dead_threads f).
Proof.
  intros ND. split; [|split; [apply Frames.prune_calls | apply Frames.prune_frame]].
  unfold prune_dead_threads. rewrite prune_loop_filter by assumption.
  apply filter_ext_in. intros [a w] Hin.
  destruct (Worker.is_alive w) eqn:A.
  - simpl. rewrite A. apply forallb_forall. intros k _. unfold alive_or_other. simpl.
    rewrite A. apply orb_true_r.
  - simpl. rewrite A.
    destruct (forallb _ _) eqn:F; auto.
    rewrite forallb_forall in F.
    assert (Ha : In a (Pool.keys (worker_threads f)))
      by (change a with (fst (a, w)); now apply in_map).
    specialize (F a Ha). unfold alive_or_other in F. simpl in F.
    now rewrite String.eqb_refl, A in F.
Qed.

(** X3: The status listing does not change when the dead handles are pruned. *)
Theorem get_all_worker_status_prune (f : Foreman) :
  NoDup (Pool.keys (worker_threads f)) ->
  get_all_worker_status (prune_dead_threads f) = get_all_worker_status f.
Proof.
  intros ND. unfold get_all_worker_status, Pool.values.
  destruct (prune_dead_threads_filter f ND) as [-> _].
  f_equal. clear ND.
  induction (worker_threads f) as [|[a w] p IH]; simpl; auto.
  destruct (Worker.is_alive w) eqn:A; simpl; rewrite ?A; now rewrite IH.
Qed.

(** *** Invariants of reconciliation *)

(** X4: [init_worker_threads] keeps the keys of the pool distinct and
    group-derived, and leaves only live handles in the pool. *)
Theorem init_worker_threads_invariants (f : Foreman) :
  NoDup (Pool.keys (worker_threads f)) ->
  derived (worker_threads f) ->
  NoDup (Pool.keys (worker_threads (init_worker_threads f)))
  /\ derived (worker_threads (init_worker_threads f))
  /\ (forall k h, In (k, h) (worker_threads (init_worker_threads f)) ->
                  Worker.is_alive h = true).
Proof.
  intros ND D.
  assert (ND' : NoDup (Pool.keys (worker_threads (init_worker_threads f))))
    by now apply Idempotent.init_distinct.
  split; [exact ND'|]. split; [now apply Capacity.init_derived|].
  intros k h Hin. apply (PoolFacts.In_get _ _ _ ND') in Hin.
  now apply Capacity.init_alive in Hin.
Qed.


(** X6: A live handle is never dropped or altered by reconciliation, except
    for being marked redundant in the mode its idle flag gives. *)
Theorem init_worker_threads_keeps_live (f : Foreman) (k : string) (w : Worker.t) :
  Pool.get k (worker_threads f) = Some w ->
  Worker.is_alive w = true ->
  Pool.get k (worker_threads (init_worker_threads f)) = Some w
  \/ Pool.get k (worker_threads (init_worker_threads f))
     = Some (Worker.set_redundant (Worker.idle w) w).
Proof.
  intros E A. rewrite init_worker_threads_get, E.
  apply Capacity.reconciled_some. simpl. now rewrite A.
Qed.

(** X7: After reconciliation a handle whose group id is not in the store, or
    whose name is not expected for any group and index of the store, is
    marked redundant, immediately if idle and pending otherwise. *)
Theorem init_worker_threads_marks_stale (f : Foreman) (k : string) (h : Worker.t) :
  Pool.get k (worker_threads (init_worker_threads f)) = Some h ->
  ~ In (Worker.worker_group_id h) (map WorkerGroup.id (worker_groups f))
  \/ (forall g i, In g (worker_groups f) -> i < WorkerGroup.number_of_workers g ->
                  Worker.name h <> Fmt.worker_name (WorkerGroup.name g) i) ->
  Worker.redundant h = Some (Worker.idle h).
Proof.
  intros E S. apply (Idempotent.stale_marked f k h E).
  unfold stale. apply orb_true_iff.
  destruct S as [S|S]; [left | right]; apply negb_true_iff.
  - destruct (Py.mem_nat _ _) eqn:M; auto.
    apply mem_nat_In, expected_ids_In in M as [M|[]]. contradiction.
  - destruct (Py.mem_str _ _) eqn:M; auto.
    apply mem_str_In, expected_names_In in M as [[g [i [Hg [Hi En]]]]|[]].
    exfalso. eapply S; eauto.
Qed.

(** X8: With unique group names, a wanted id that is free, or held by a dead
    handle, holds after reconciliation the handle [start_worker_thread]
    creates: idle, alive, neither paused nor redundant, with the group's
    id and the derived name. *)
Theorem init_worker_threads_creates (f : Foreman) (g : WorkerGroup.t) (i : nat) :
  unique_names (worker_groups f) ->
  In g (worker_groups f) ->
  i < WorkerGroup.number_of_workers g ->
  only_alive (Pool.get (Fmt.worker_id (WorkerGroup.name g) i) (worker_threads f)) = None ->
  Pool.get (Fmt.worker_id (WorkerGroup.name g) i)
           (worker_threads (init_worker_threads f))
  = Some (Worker.start (Fmt.worker_id (WorkerGroup.name g) i)
                       (Fmt.worker_name (WorkerGroup.name g) i) (WorkerGroup.id g)).
Proof.
  intros U Hg Hi E.
  rewrite init_worker_threads_get, Capacity.at_own_key by assumption.
  rewrite group_below by assumption. rewrite E. simpl.
  fold (fresh g i). now rewrite Capacity.fresh_not_stale.
Qed.

End PoolExtras.

(** ** Pausing, resuming and terminating workers *)

Module PauseExtras.
Import Props Steps KeywiseFacts.

Lemma pause_paused w : Worker.paused w = true -> Worker.pause w = w.
Proof. destruct w; simpl; intros ->; reflexivity. Qed.

Lemma pause_worker_thread_get K k f :
  Pool.get K (worker_threads (snd (pause_worker_thread k f)))
  = if k =? K then option_map Worker.pause (Pool.get K (worker_threads f))
    else Pool.get K (worker_threads f).
Proof.
  unfold pause_worker_thread.
  destruct (Pool.get k (worker_threads f)) as [w|] eqn:E.
  - unfold Worker.is_paused. destruct (Worker.paused w) eqn:P; simpl.
    + destruct (String.eqb_spec k K) as [->|]; auto.
      rewrite E. simpl. now rewrite pause_paused.
    + apply PoolFacts.get_modify.
  - simpl. destruct (String.eqb_spec k K) as [->|]; auto. now rewrite E.
Qed.

Lemma resume_worker_thread_get K k f :
  Pool.get K (worker_threads (snd (resume_worker_thread k f)))
  = if k =? K then option_map Worker.unpause (Pool.get K (worker_threads f))
    else Pool.get K (worker_threads f).
Proof.
  unfold resume_worker_thread. cbn [worker_threads call].
  destruct (Pool.get k (worker_threads f)) as [w|] eqn:E; cbn [snd].
  - apply PoolFacts.get_modify.
  - cbn [worker_threads call].
    destruct (String.eqb_spec k K) as [->|]; auto. now rewrite E.
Qed.

(** X9: A request for an id that is not in the pool is answered False and
    changes no handle; for an id in the pool it is answered True. *)
Theorem single_worker_requests (k : string) (f : Foreman) :
  (Pool.get k (worker_threads f) = None ->
   fst (pause_worker_thread k f) = false
   /\ fst (resume_worker_thread k f) = false
   /\ fst (terminate_worker_thread k f) = false
   /\ worker_threads (snd (pause_worker_thread k f)) = worker_threads f
   /\ worker_threads (snd (resume_worker_thread k f)) = worker_threads f
   /\ worker_threads (snd (terminate_worker_thread k f)) = worker_threads f)
  /\ (Pool.get k (worker_threads f) <> None ->
      fst (pause_worker_thread k f) = true
      /\ fst (resume_worker_thread k f) = true
      /\ fst (terminate_worker_thread k f) = true).
Proof.
  unfold pause_worker_thread, resume_worker_thread, terminate_worker_thread.
  cbn [worker_threads call].
  split; intros H.
  - rewrite H. repeat split.
  - destruct (Pool.get k (worker_threads f)) as [w|]; [|congruence].
    repeat split. now destruct (negb (Worker.is_paused w)).
Qed.

(** Pausing a worker that is already paused changes nothing and makes
    no call. *)
Theorem pause_worker_thread_again (k : string) (w : Worker.t) (f : Foreman) :
  Pool.get k (worker_threads f) = Some w ->
  Worker.paused w = true ->
  pause_worker_thread k f = (true, f).
Proof.
  intros E P. unfold pause_worker_thread, Worker.is_paused. now rewrite E, P.
Qed.

(** *** The loops over all threads *)

Section ForEach.
Variable op : string -> Foreman -> bool * Foreman.
Variable F : Worker.t -> Worker.t.
Variable worker_group_id : option nat.
Hypothesis op_get :
  forall K k f,
    Pool.get K (worker_threads (snd (op k f)))
    = if k =? K then option_map F (Pool.get K (worker_threads f))
      else Pool.get K (worker_threads f).
Hypothesis F_idem : forall w, F (F w) = F w.
Hypothesis F_group : forall w, Worker.worker_group_id (F w) = Worker.worker_group_id w.
Hypothesis op_found :
  forall k f, Pool.get k (worker_threads f) <> None -> fst (op k f) = true.

Let in_scope (w : Worker.t) : Worker.t :=
  if outside_group worker_group_id w then w else F w.

Lemma outside_group_F w :
  outside_group worker_group_id (F w) = outside_group worker_group_id w.
Proof. unfold outside_group. now rewrite F_group. Qed.

Lemma in_scope_idem o :
  option_map in_scope (option_map in_scope o) = option_map in_scope o.
Proof.
  destruct o as [w|]; simpl; auto. unfold in_scope.
  destruct (outside_group worker_group_id w) eqn:O.
  - now rewrite O.
  - now rewrite outside_group_F, O, F_idem.
Qed.

Lemma for_each_thread_get K f :
  Pool.get K (worker_threads (snd (for_each_thread op worker_group_id f)))
  = option_map in_scope (Pool.get K (worker_threads f)).
Proof.
  unfold for_each_thread.
  rewrite (fold_get snd _
             (fun o k => if k =? K then option_map in_scope o else o)).
  - cbn [snd]. rewrite keyed_fold by apply in_scope_idem.
    now apply over_all_keys.
  - intros [result a] k. cbn [snd].
    destruct (Pool.get k (worker_threads a)) as [w|] eqn:E.
    + unfold in_scope.
      destruct (outside_group worker_group_id w) eqn:O.
      * cbn [snd]. destruct (String.eqb_spec k K) as [->|]; auto.
        rewrite E. simpl. now rewrite O.
      * pose proof (op_get K k a) as G.
        destruct (op k a) as [ok a']. cbn [snd] in *. rewrite G.
        destruct (String.eqb_spec k K) as [->|]; auto.
        rewrite E. simpl. now rewrite O.
    + cbn [snd]. destruct (String.eqb_spec k K) as [->|]; auto. now rewrite E.
Qed.

Lemma for_each_thread_true f :
  fst (for_each_thread op worker_group_id f) = true.
Proof.
  unfold for_each_thread.
  apply (fold_left_inv (fun acc : bool * Foreman => fst acc = true)); auto.
  intros [result a] k _ Ha. simpl in Ha. subst result.
  destruct (Pool.get k (worker_threads a)) as [w|] eqn:E; auto.
  destruct (outside_group worker_group_id w); auto.
  assert (T : fst (op k a) = true) by (apply op_found; congruence).
  destruct (op k a) as [ok a']. simpl in *. now subst ok.
Qed.
End ForEach.

(** X10: [pause_all_worker_threads] answers True; afterwards every handle of
    the requested group is paused and every other handle is as before.
    Without a group, or with group id 0, every handle is paused. *)
Theorem pause_all_worker_threads_spec (worker_group_id : option nat) (f : Foreman) :
  fst (pause_all_worker_threads worker_group_id f) = true
  /\ forall K,
       Pool.get K (worker_threads (snd (pause_all_worker_threads worker_group_id f)))
       = option_map (fun w => if outside_group worker_group_id w then w
                              else Worker.pause w)
                    (Pool.get K (worker_threads f)).
Proof.
  unfold pause_all_worker_threads. split.
  - apply (for_each_thread_true pause_worker_thread).
    intros k a H. destruct (single_worker_requests k a) as [_ T].
    now destruct (T H).
  - intros K.
    apply (for_each_thread_get pause_worker_thread Worker.pause); auto.
    intros; apply pause_worker_thread_get.
Qed.

(** X11: [resume_all_worker_threads] answers True; afterwards no handle of
    the requested group is paused and every other handle is as before. *)
Theorem resume_all_worker_threads_spec (worker_group_id : option nat) (f : Foreman) :
  fst (resume_all_worker_threads worker_group_id f) = true
  /\ forall K,
       Pool.get K (worker_threads (snd (resume_all_worker_threads worker_group_id f)))
       = option_map (fun w => if outside_group worker_group_id w then w
                              else Worker.unpause w)
                    (Pool.get K (worker_threads f)).
Proof.
  unfold resume_all_worker_threads. split.
  - apply (for_each_thread_true resume_worker_thread).
    intros k a H. destruct (single_worker_requests k a) as [_ T].
    now destruct (T H).
  - intros K.
    apply (for_each_thread_get resume_worker_thread Worker.unpause); auto.
    intros; apply resume_worker_thread_get.
Qed.

(** X12: [terminate_all_worker_threads] answers True and marks every handle
    of the pool redundant in pending mode, as [stop] does. *)
Theorem terminate_all_worker_threads_spec (f : Foreman) :
  fst (terminate_all_worker_threads f) = true
  /\ forall K,
       Pool.get K (worker_threads (snd (terminate_all_worker_threads f)))
       = Pool.get K (worker_threads (stop f)).
Proof.
  unfold terminate_all_worker_threads. split.
  - apply (for_each_thread_true terminate_worker_thread).
    intros k a H. destruct (single_worker_requests k a) as [_ T].
    now destruct (T H).
  - intros K. rewrite Shutdown.stop_get.
    rewrite (for_each_thread_get terminate_worker_thread (Worker.set_redundant false));
      auto.
    intros; apply Shutdown.terminate_get.
Qed.

(** X13: Pausing a group and resuming it leaves no handle of the group
    paused, whatever its pause flag was, and leaves the other groups'
    handles alone. *)
Theorem pause_then_resume (g : nat) (f : Foreman) (K : string) :
  Pool.get K (worker_threads
                (snd (resume_all_worker_threads (Some g)
                        (snd (pause_all_worker_threads (Some g) f)))))
  = option_map (fun w => if outside_group (Some g) w then w else Worker.unpause w)
               (Pool.get K (worker_threads f)).
Proof.
  destruct (resume_all_worker_threads_spec (Some g)
              (snd (pause_all_worker_threads (Some g) f))) as [_ ->].
  destruct (pause_all_worker_threads_spec (Some g) f) as [_ ->].
  destruct (Pool.get K (worker_threads f)) as [w|]; cbn [option_map]; auto.
  f_equal. destruct (outside_group (Some g) w) eqn:O.
  - now rewrite O.
  - change (outside_group (Some g) (Worker.pause w)) with (outside_group (Some g) w).
    now rewrite O.
Qed.

(** *** Availability *)

(** X14: [check_for_idle_workers] is True exactly when
    [fetch_available_worker_ids] lists some worker. *)
Theorem check_for_idle_workers_iff (f : Foreman) :
  check_for_idle_workers f = true <-> fetch_available_worker_ids f <> [].
Proof.
  unfold check_for_idle_workers, fetch_available_worker_ids.
  induction (Pool.values (worker_threads f)) as [|w l IH]; simpl.
  - split; [discriminate | congruence].
  - destruct (available w); simpl.
    + split; [discriminate | reflexivity].
    + exact IH.
Qed.

End PauseExtras.

(** ** More on the configuration gate *)

Module GateExtras.
Import Props Steps GateFacts.

Section WithDigest.
Variable digest : Library.settings -> string.
Hypothesis digest_nonempty : forall s, digest s <> "".

(** X15: After a check against some configuration, a second check against
    the same configuration reports no change and alters nothing. *)
Theorem configuration_changed_settles (cur : Library.settings) (f : Foreman) :
  configuration_changed digest cur (snd (configuration_changed digest cur f))
  = (false, snd (configuration_changed digest cur f)).
Proof.
  apply configuration_unchanged.
  destruct (String.eqb_spec (digest cur) (settings_hash (current_config f))) as [E|N].
  - rewrite (configuration_unchanged digest cur f E). exact E.
  - destruct (configuration_changed_records digest digest_nonempty cur f N)
      as (_ & H & _). now rewrite H.
Qed.

(** X16: [validate_worker_config] passes exactly when the enabled
    plugins are compatible, the configuration hash equals the stored one
    and the library count is within limits.  Besides what the two
    collaborators do to the message queue they are handed, the Foreman
    changes nothing on an equal hash, and on a different hash it puts the
    warning 'pluginSettingsChangeWorkersStopped', after the plugin check
    has been handed the queue and before the library-count check is. *)
Theorem validate_worker_config_iff (e : Env) (f : Foreman) :
  (fst (validate_worker_config digest e f) = true
   <-> incompatible_enabled_plugins e = false
       /\ digest (library_configuration e) = settings_hash (current_config f)
       /\ within_library_count_limits e = true)
  /\ (digest (library_configuration e) = settings_hash (current_config f) ->
      snd (validate_worker_config digest e f)
      = set_frontend_messages (reported e (frontend_messages f)) f)
  /\ (digest (library_configuration e) <> settings_hash (current_config f) ->
      frontend_messages (snd (validate_worker_config digest e f))
      = limits_messages e
          (Messages.put settings_changed_message
                        (plugins_messages e (frontend_messages f)))).
Proof.
  destruct (String.eqb_spec (digest (library_configuration e))
                            (settings_hash (current_config f))) as [E|N].
  - split; [|split; [|contradiction]].
    + unfold validate_worker_config.
      rewrite (configuration_unchanged digest (library_configuration e)
                 (set_frontend_messages (plugins_messages e (frontend_messages f)) f) E).
      destruct (incompatible_enabled_plugins e), (within_library_count_limits e);
        simpl; split; intros; try discriminate; intuition congruence.
    + intros _. unfold validate_worker_config.
      rewrite (configuration_unchanged digest (library_configuration e)
                 (set_frontend_messages (plugins_messages e (frontend_messages f)) f) E).
      reflexivity.
  - destruct (validate_fails digest digest_nonempty e f N) as (Hf & _ & Hm).
    split; [|split; [contradiction | intros _; exact Hm]].
    rewrite Hf. split; [discriminate | tauto].
Qed.

End WithDigest.

End GateExtras.

(** ** More on the schedules *)

Module ScheduleExtras.
Import Props Steps.

Lemma fires_due t d g f s :
  t <> "" ->
  EventSchedule.schedule_time s = Some t ->
  fst (check_event_schedule t d g (false, f) s)
  = due_on (EventSchedule.repetition s) d.
Proof.
  intros Ht Hs. unfold check_event_schedule, due_on. rewrite Hs.
  unfold Py.truthy_opt_str at 1. unfold Py.truthy_str, opt_is at 1.
  rewrite String.eqb_refl.
  destruct (String.eqb_spec t "") as [|_]; [contradiction|]. cbn [negb].
  destruct (Py.truthy_opt_str (EventSchedule.repetition s)); cbn [negb andb]; auto.
  destruct (opt_is (EventSchedule.repetition s) "daily"); cbn [orb fst]; auto.
  destruct (opt_is (EventSchedule.repetition s) "weekday"
            && negb (Py.mem_str (nth d days "") weekend_days)); cbn [orb fst]; auto.
  destruct (opt_is (EventSchedule.repetition s) "weekend"
            && Py.mem_str (nth d days "") weekend_days); cbn [orb fst]; auto.
  destruct (opt_is (EventSchedule.repetition s) (nth d days "")); cbn [orb fst]; auto.
Qed.

(** X17: On which days a schedule whose time is now runs its action: daily
    on every day, 'weekday' on Monday to Friday, 'weekend' on Saturday
    and Sunday, a day name on that day only, and never without a
    repetition. *)
Theorem repetition_days (t : string) (d : nat) (g : WorkerGroup.t) (f : Foreman)
        (s : EventSchedule.t) :
  t <> "" -> d < 7 ->
  EventSchedule.schedule_time s = Some t ->
  let fires := fst (check_event_schedule t d g (false, f) s) in
  (EventSchedule.repetition s = Some "daily" -> fires = true)
  /\ (EventSchedule.repetition s = Some "weekday" -> (fires = true <-> d < 5))
  /\ (EventSchedule.repetition s = Some "weekend" -> (fires = true <-> 5 <= d))
  /\ (forall k, k < 7 -> EventSchedule.repetition s = Some (nth k days "") ->
                (fires = true <-> d = k))
  /\ (EventSchedule.repetition s = None \/ EventSchedule.repetition s = Some "" ->
      fires = false).
Proof.
  intros Ht Hd Hs. cbv zeta. rewrite (fires_due t d g f s Ht Hs).
  assert (D : d = 0 \/ d = 1 \/ d = 2 \/ d = 3 \/ d = 4 \/ d = 5 \/ d = 6) by lia.
  split; [|split; [|split; [|split]]].
  - intros ->. destruct D as [->|[->|[->|[->|[->|[->| ->]]]]]]; reflexivity.
  - intros ->.
    destruct D as [->|[->|[->|[->|[->|[->| ->]]]]]]; vm_compute;
      split; intros; try lia; try discriminate; auto.
  - intros ->.
    destruct D as [->|[->|[->|[->|[->|[->| ->]]]]]]; vm_compute;
      split; intros; try lia; try discriminate; auto.
  - intros k Hk ->.
    assert (Kd : k = 0 \/ k = 1 \/ k = 2 \/ k = 3 \/ k = 4 \/ k = 5 \/ k = 6) by lia.
    destruct D as [->|[->|[->|[->|[->|[->| ->]]]]]];
      destruct Kd as [->|[->|[->|[->|[->|[->| ->]]]]]]; vm_compute;
        split; intros; try lia; try discriminate; auto.
  - intros [-> | ->]; reflexivity.
Qed.

Lemma check_other_time t d g acc s :
  EventSchedule.schedule_time s <> Some t ->
  check_event_schedule t d g acc s = acc.
Proof.
  intros H. destruct acc as [did f]. unfold check_event_schedule.
  destruct (EventSchedule.schedule_time s) as [x|]; simpl; auto.
  unfold Py.truthy_str. destruct (x =? ""); simpl; auto.
  destruct (String.eqb_spec x t) as [->|]; [congruence | reflexivity].
Qed.

(** X18: A tick at a minute that no schedule of the store names changes
    nothing at all: no action, no reconciliation, no call. *)
Theorem tick_without_match (t : string) (d : nat) (f : Foreman) :
  (forall g s, In g (worker_groups f) ->
               In s (WorkerGroup.worker_event_schedules g) ->
               EventSchedule.schedule_time s <> Some t) ->
  manage_event_schedules t d f = f.
Proof.
  intros H. unfold manage_event_schedules.
  assert (E : fold_left
      (fun (acc : bool * Foreman) wg =>
         match fetch_worker_group (WorkerGroup.id wg) (snd acc) with
         | Some worker_group =>
             fold_left (check_event_schedule t d worker_group)
                       (WorkerGroup.worker_event_schedules worker_group) acc
         | None =>
             (fst acc,
              call (Log "debug"
                      "While iterating through the worker groups, the worker group disappeared")
                   (snd acc))
         end) (worker_groups f) (false, f) = (false, f)).
  { apply (fold_left_inv (fun acc => acc = (false, f))); auto.
    intros acc wg Hwg ->. cbn [snd fst]. unfold fetch_worker_group.
    destruct (find _ (worker_groups f)) as [g|] eqn:Fg.
    - apply find_some in Fg as [Hg _].
      apply (fold_left_inv (fun acc => acc = (false, f))); auto.
      intros acc s Hs ->. apply check_other_time. now apply (H g s).
    - exfalso. apply (find_none _ _ Fg) in Hwg.
      now rewrite Nat.eqb_refl in Hwg. }
  now rewrite E.
Qed.

Lemma capacity_weaken (ok ok' : string -> Prop) g p :
  (forall k, ok' k -> ok k) -> capacity ok g p -> capacity ok' g p.
Proof.
  intros H [C1 C2]. split; [|exact C2].
  intros i Hi. destruct (C1 i Hi) as [h [E [A R]]].
  exists h. split; [exact E|]. split; [exact A|]. intros Hk. apply R, H, Hk.
Qed.

(** X19: A resize schedule that is due in a store of one group persists the
    new count and reconciles the pool to it within the same tick: the
    store holds the group with the new count, the minute is recorded,
    and the capacity property holds for the resized group. *)
Theorem resize_schedule_reconciles (t : string) (d c : nat) (g : WorkerGroup.t)
        (f : Foreman) :
  t <> "" ->
  worker_groups f = [g] ->
  WorkerGroup.worker_event_schedules g
  = [EventSchedule.make (Some t) (Some "daily") (Some "count") (Some c)] ->
  derived (worker_threads f) ->
  worker_groups (manage_event_schedules t d f)
  = [WorkerGroup.set_number_of_workers c g]
  /\ last_schedule_run (manage_event_schedules t d f) = Some t
  /\ capacity (reusable (set_worker_groups [WorkerGroup.set_number_of_workers c g] f))
              (WorkerGroup.set_number_of_workers c g)
              (worker_threads (manage_event_schedules t d f)).
Proof.
  intros Ht Hg Hs D.
  set (g' := WorkerGroup.set_number_of_workers c g).
  set (f1 := save_number_of_workers g (Some c)
               (call (Log "debug"
                        ("Running scheduled event - Setting worker count to '"
                         ++ Fmt.dec c ++ "'"))
                     (set_last_schedule_run (Some t) f))).
  assert (E : manage_event_schedules t d f = init_worker_threads f1).
  { unfold manage_event_schedules. rewrite Hg. cbn [fold_left snd].
    unfold fetch_worker_group. rewrite Hg. cbn [find].
    rewrite Nat.eqb_refl. rewrite Hs. cbn [fold_left].
    unfold check_event_schedule. cbn [EventSchedule.schedule_time
      EventSchedule.repetition EventSchedule.schedule_task
      EventSchedule.schedule_worker_count].
    unfold Py.truthy_opt_str at 1. unfold Py.truthy_str at 1. unfold opt_is at 1.
    rewrite String.eqb_refl.
    destruct (String.eqb_spec t "") as [|_]; [contradiction|].
    reflexivity. }
  assert (G1 : worker_groups f1 = [g']).
  { unfold f1, save_number_of_workers. cbn [worker_groups call set_worker_groups
      set_last_schedule_run]. rewrite Hg. cbn [map]. now rewrite Nat.eqb_refl. }
  rewrite E.
  destruct (Frames.init_worker_threads_frame f1) as (_ & _ & _ & _ & L & _ & G).
  split; [now rewrite G|]. split; [now rewrite L|].
  apply (capacity_weaken (reusable f1)).
  - intros k. unfold reusable. cbn [worker_threads f1 save_number_of_workers call
      set_worker_groups set_last_schedule_run]. rewrite G1. auto.
  - apply Capacity.init_worker_threads_capacity.
    + rewrite G1. apply CapacityRuns.one_name.
    + rewrite G1. now left.
    + exact D.
Qed.

End ScheduleExtras.

(** ** More on the dispatch loop *)

Module DispatchExtras.
Import Props Steps.

(** X20: [assign_task] hands the task to the first handle of the pool that
    accepts work, by one [add_work] call; every other handle, and
    everything else in the Foreman, stays as it is. *)
Theorem assign_task_first (task : Task) (f : Foreman) (k : string) (w : Worker.t)
        (before after : Pool.t) :
  worker_threads f = before ++ (k, w) :: after ->
  Forall (fun kv => Worker.can_accept_work (snd kv) = false) before ->
  Worker.can_accept_work w = true ->
  calls (assign_task task f) = calls f ++ [Worker_add_work w task]
  /\ frame f (assign_task task f)
  /\ forall K,
       Pool.get K (worker_threads (assign_task task f))
       = if k =? K then option_map (Worker.add_work task) (Pool.get K (worker_threads f))
         else Pool.get K (worker_threads f).
Proof.
  intros E B A.
  assert (F : find (fun kv => Worker.can_accept_work (snd kv)) (worker_threads f)
              = Some (k, w)).
  { rewrite E. clear E. induction B as [|[a x] l Hx _ IH]; simpl.
    - now rewrite A.
    - simpl in Hx. now rewrite Hx. }
  unfold assign_task. rewrite F. split; [reflexivity|]. split.
  - unfold frame; simpl; tauto.
  - intros K. apply PoolFacts.get_modify.
Qed.

(** X21: A pass from the acquire on, with the abort flag clear, a permit, a
    queued task and a handle that accepts work: one permit is used, the
    source loses its first task and that task is handed to the handle. *)
Theorem dispatch_one (f : Foreman) (n : nat) (task : Task) (rest : list Task) :
  abort_flag f = false ->
  idle_workers f = S n ->
  Pending.items (pendingtasks f) = task :: rest ->
  existsb (fun kv => Worker.can_accept_work (snd kv)) (worker_threads f) = true ->
  exists f' k w,
    acquire_idle_worker f = Continue f'
    /\ idle_workers f' = n
    /\ Pending.items (pendingtasks f') = rest
    /\ In (k, w) (worker_threads f)
    /\ Worker.can_accept_work w = true
    /\ calls f' = calls f ++ [Worker_add_work w task]
    /\ exists w', Pool.get k (worker_threads f') = Some w'
                  /\ Worker.current_task w' = Some task
                  /\ Worker.idle w' = false.
Proof.
  intros Ha Hi Hq Hw.
  unfold acquire_idle_worker. rewrite Hi.
  unfold have_idle_workers. cbn [abort_flag set_idle_workers]. rewrite Ha.
  unfold take_task, Pending.get.
  change (pendingtasks (set_idle_workers n f)) with (pendingtasks f). rewrite Hq.
  unfold assign_task.
  change (worker_threads (set_pendingtasks _ (set_idle_workers n f)))
    with (worker_threads f).
  destruct (find (fun kv => Worker.can_accept_work (snd kv)) (worker_threads f))
    as [[k w]|] eqn:F.
  - pose proof (find_some _ _ F) as [Hin Hc]. cbn [snd] in Hc.
    eexists. exists k, w. split; [reflexivity|].
    cbn [idle_workers pendingtasks call set_worker_threads Pending.items calls].
    repeat split; auto.
    cbn [worker_threads call set_worker_threads].
    rewrite PoolFacts.get_modify, String.eqb_refl.
    destruct (Pool.get k (worker_threads f)) as [w0|] eqn:G.
    + exists (Worker.add_work task w0). repeat split.
    + exfalso. apply PoolFacts.get_None in G. apply G.
      change k with (fst (k, w)). now apply in_map.
  - exfalso. apply existsb_exists in Hw as [kv [Hin Hc]].
    apply (find_none _ _ F) in Hin. congruence.
Qed.

Lemma paused_after_pause w : Worker.paused (Worker.pause w) = true.
Proof. reflexivity. Qed.



End DispatchExtras.

(** ** More on the status lookup *)

Module StatusExtras.
Import Props Status.








End StatusExtras.

(** ** Signing out *)

Module SessionExtras.
Import Props.

Lemma save_other (r r0 : Installation.row) (db : Installation.table) :
  In r0 db -> Installation.id r0 <> Installation.id r ->
  In r0 (Installation.save r db).
Proof.
  intros Hin Hne. unfold Installation.save. apply in_map_iff.
  exists r0. split; auto.
  destruct (Nat.eqb_spec (Installation.id r0) (Installation.id r)); congruence.
Qed.

Lemma save_self (r r' : Installation.row) (db : Installation.table) :
  In r db -> Installation.id r' = Installation.id r ->
  In r' (Installation.save r' db).
Proof.
  intros Hin E. unfold Installation.save. apply in_map_iff.
  exists r. split; auto. rewrite E. now rewrite Nat.eqb_refl.
Qed.

(** X26: [sign_out] answers True when the session has no uuid, and then the
    table is untouched, or when the table has a row for the uuid, and
    then that row is saved with level 0, empty name, e-mail and picture,
    the sign-out time and no tokens, but with the session's cookie blob
    as it was, every row with another key being kept.  Either way the
    session is reset, its cookie jar emptied and its Authorization
    header blanked, while its stored cookie blob stays. *)
Theorem sign_out_succeeds (now : Z) (s : Session.t) (db : Installation.table) :
  (Py.truthy_opt_str (Session.uuid s) = false
   \/ exists u r, Session.uuid s = Some u /\ u <> ""
                  /\ Installation.get_or_none u db = Some r) ->
  snd (sign_out_result now s db) = Py.Ok true
  /\ fst (fst (sign_out_result now s db))
     = Session.make "" "" "" (Some now) (Session.uuid s) (Session.session_cookies s)
                    0%Z None None (Session.mkRequests (Some "") [])
  /\ (Py.truthy_opt_str (Session.uuid s) = false ->
      snd (fst (sign_out_result now s db)) = db)
  /\ (forall u r, Session.uuid s = Some u -> u <> "" ->
                  Installation.get_or_none u db = Some r ->
        In (Installation.make (Installation.id r) (Installation.uuid r) 0%Z "" "" ""
                              (Some now) None None (Session.session_cookies s))
           (snd (fst (sign_out_result now s db)))
        /\ forall r0, In r0 db -> Installation.id r0 <> Installation.id r ->
                      In r0 (snd (fst (sign_out_result now s db)))).
Proof.
  unfold sign_out_result, Session.sign_out, Session.reset_session_installation_data,
    Session.store_installation_data.
  cbn [Session.uuid Session.user_access_token Session.user_refresh_token
       Session.session_cookies Session.level Session.picture_uri Session.name
       Session.email Session.created].
  intros [H | [u [r [Hu [Hne Hr]]]]].
  - rewrite H. cbn [fst snd Session.clear_session_auth Session.picture_uri
      Session.name Session.email Session.created Session.uuid
      Session.session_cookies Session.level Session.user_access_token
      Session.user_refresh_token].
    split; [reflexivity|]. split; [reflexivity|]. split; [reflexivity|].
    intros u r Hu Hne _. exfalso. rewrite Hu in H. simpl in H.
    unfold Py.truthy_str in H.
    destruct (String.eqb_spec u ""); [contradiction | discriminate].
  - assert (T : Py.truthy_opt_str (Some u) = true).
    { simpl. unfold Py.truthy_str.
      destruct (String.eqb_spec u ""); [contradiction | reflexivity]. }
    rewrite Hu, T, Hr. rewrite !orb_true_r.
    cbn [fst snd Session.clear_session_auth Session.picture_uri
      Session.name Session.email Session.created Session.uuid
      Session.session_cookies Session.level Session.user_access_token
      Session.user_refresh_token].
    split; [reflexivity|]. split; [reflexivity|]. split; [discriminate|].
    intros u' r' Eu _ Hr'. injection Eu as <-.
    rewrite Hr in Hr'. injection Hr' as <-.
    split.
    + apply (save_self r); auto.
      unfold Installation.get_or_none in Hr. now apply find_some in Hr.
    + intros r0 Hin Hid. now apply save_other.
Qed.

(** X27: When the session has a uuid but the table has no row for it,
    [sign_out] raises AttributeError: the table is untouched, and the
    cookie jar and the Authorization header are not cleared although the
    attributes of the session have been reset already. *)
Theorem sign_out_without_row (now : Z) (s : Session.t) (db : Installation.table)
        (u : string) :
  Session.uuid s = Some u -> u <> "" ->
  Installation.get_or_none u db = None ->
  snd (sign_out_result now s db) = Py.Raise Py.AttributeError
  /\ snd (fst (sign_out_result now s db)) = db
  /\ Session.requests_session (fst (fst (sign_out_result now s db)))
     = Session.requests_session s
  /\ Session.name (fst (fst (sign_out_result now s db))) = ""
  /\ Session.level (fst (fst (sign_out_result now s db))) = 0%Z.
Proof.
  intros Hu Hne Hr.
  unfold sign_out_result, Session.sign_out, Session.reset_session_installation_data,
    Session.store_installation_data.
  cbn [Session.uuid]. rewrite Hu. cbn [Py.truthy_opt_str]. unfold Py.truthy_str.
  destruct (String.eqb_spec u "") as [|_]; [contradiction|]. cbn [negb].
  rewrite Hr. cbn. repeat split.
Qed.

End SessionExtras.

(** ** The further theorems at work on concrete inputs *)

Module ExtraRuns.
Import Props Steps Examples Examples3 Examples4 Examples5.

Lemma two_keys : NoDup ["default-0"; "default-1"].
Proof.
  constructor; [simpl; intros [E|[]]; discriminate E | apply CapacityRuns.one_name].
Qed.

Lemma with_dead_keys : Pool.keys (worker_threads with_dead) = ["default-0"; "default-1"].
Proof. reflexivity. Qed.

Lemma prune_dead_threads_filter_witness :
  worker_threads (prune_dead_threads with_dead)
  = filter (fun kv => Worker.is_alive (snd kv)) (worker_threads with_dead)
  /\ calls (prune_dead_threads with_dead) = calls with_dead
  /\ frame with_dead (prune_dead_threads with_dead).
Proof.
  apply (PoolExtras.prune_dead_threads_filter with_dead).
  rewrite with_dead_keys. exact two_keys.
Defined.

Lemma get_all_worker_status_prune_witness :
  get_all_worker_status (prune_dead_threads with_dead) = get_all_worker_status with_dead.
Proof.
  apply (PoolExtras.get_all_worker_status_prune with_dead).
  rewrite with_dead_keys. exact two_keys.
Defined.

Lemma init_worker_threads_invariants_witness :
  NoDup (Pool.keys (worker_threads (init_worker_threads lowered)))
  /\ derived (worker_threads (init_worker_threads lowered))
  /\ (forall k h, In (k, h) (worker_threads (init_worker_threads lowered)) ->
                  Worker.is_alive h = true).
Proof.
  apply (PoolExtras.init_worker_threads_invariants lowered).
  - rewrite Runs.lowered_keys. exact two_keys.
  - exact CapacityRuns.derived_lowered.
Defined.

Lemma init_worker_threads_keeps_live_witness :
  Pool.get "default-1" (worker_threads (init_worker_threads lowered)) = Some worker_1
  \/ Pool.get "default-1" (worker_threads (init_worker_threads lowered))
     = Some (Worker.set_redundant (Worker.idle worker_1) worker_1).
Proof.
  apply (PoolExtras.init_worker_threads_keeps_live lowered "default-1" worker_1).
  - vm_compute. reflexivity.
  - reflexivity.
Defined.

Lemma init_worker_threads_marks_stale_witness :
  Worker.redundant (Worker.set_redundant true worker_0)
  = Some (Worker.idle (Worker.set_redundant true worker_0)).
Proof.
  apply (PoolExtras.init_worker_threads_marks_stale
           orphaned "default-0" (Worker.set_redundant true worker_0)).
  - vm_compute. reflexivity.
  - left. intros H. exact H.
Defined.

Lemma init_worker_threads_creates_witness :
  Pool.get (Fmt.worker_id (WorkerGroup.name (default_group 1 [])) 0)
           (worker_threads (init_worker_threads fresh_foreman))
  = Some (Worker.start (Fmt.worker_id (WorkerGroup.name (default_group 1 [])) 0)
                       (Fmt.worker_name (WorkerGroup.name (default_group 1 [])) 0)
                       (WorkerGroup.id (default_group 1 []))).
Proof.
  apply (PoolExtras.init_worker_threads_creates fresh_foreman (default_group 1 []) 0).
  - apply CapacityRuns.one_name.
  - left. reflexivity.
  - simpl. lia.
  - vm_compute. reflexivity.
Defined.

Lemma spell_nonempty (s : Library.settings) : spell s <> "".
Proof. unfold spell. simpl. discriminate. Qed.

Lemma configuration_changed_settles_witness :
  configuration_changed spell library_b
    (snd (configuration_changed spell library_b fresh_foreman))
  = (false, snd (configuration_changed spell library_b fresh_foreman)).
Proof.
  exact (GateExtras.configuration_changed_settles spell spell_nonempty
           library_b fresh_foreman).
Defined.

Lemma validate_worker_config_iff_witness :
  (fst (validate_worker_config spell edited_pass fresh_foreman) = true
   <-> incompatible_enabled_plugins edited_pass = false
       /\ spell (library_configuration edited_pass)
          = settings_hash (current_config fresh_foreman)
       /\ within_library_count_limits edited_pass = true)
  /\ (spell (library_configuration edited_pass)
      = settings_hash (current_config fresh_foreman) ->
      snd (validate_worker_config spell edited_pass fresh_foreman)
      = set_frontend_messages (reported edited_pass (frontend_messages fresh_foreman))
                              fresh_foreman)
  /\ (spell (library_configuration edited_pass)
      <> settings_hash (current_config fresh_foreman) ->
      frontend_messages (snd (validate_worker_config spell edited_pass fresh_foreman))
      = limits_messages edited_pass
          (Messages.put settings_changed_message
                        (plugins_messages edited_pass
                                          (frontend_messages fresh_foreman)))).
Proof.
  exact (GateExtras.validate_worker_config_iff spell spell_nonempty
           edited_pass fresh_foreman).
Defined.

Lemma nine_not_empty : "09:00" <> "".
Proof. discriminate. Qed.

Lemma repetition_days_witness :
  let fires :=
    fst (check_event_schedule "09:00" 5 (default_group 1 []) (false, fresh_foreman)
           (EventSchedule.make (Some "09:00") (Some "weekday") (Some "pause") None)) in
  (Some "weekday" = Some "daily" -> fires = true)
  /\ (Some "weekday" = Some "weekday" -> (fires = true <-> 5 < 5))
  /\ (Some "weekday" = Some "weekend" -> (fires = true <-> 5 <= 5))
  /\ (forall k, k < 7 -> Some "weekday" = Some (nth k days "") ->
                (fires = true <-> 5 = k))
  /\ (Some "weekday" = None \/ Some "weekday" = Some "" -> fires = false).
Proof.
  apply (ScheduleExtras.repetition_days "09:00" 5 (default_group 1 []) fresh_foreman
           (EventSchedule.make (Some "09:00") (Some "weekday") (Some "pause") None)).
  - exact nine_not_empty.
  - lia.
  - reflexivity.
Defined.

Lemma tick_without_match_witness :
  manage_event_schedules "10:00" 0 (started 1 [nine_daily_pause])
  = started 1 [nine_daily_pause].
Proof.
  apply (ScheduleExtras.tick_without_match "10:00" 0 (started 1 [nine_daily_pause])).
  intros g s Hg Hs. vm_compute in Hg. destruct Hg as [<-|[]].
  simpl in Hs. destruct Hs as [<-|[]]. discriminate.
Defined.

Lemma resize_schedule_reconciles_witness :
  worker_groups (manage_event_schedules "09:00" 0 (started 1 [nine_daily_count]))
  = [WorkerGroup.set_number_of_workers 2 (default_group 1 [nine_daily_count])]
  /\ last_schedule_run
       (manage_event_schedules "09:00" 0 (started 1 [nine_daily_count])) = Some "09:00"
  /\ capacity
       (reusable (set_worker_groups
                    [WorkerGroup.set_number_of_workers 2
                       (default_group 1 [nine_daily_count])]
                    (started 1 [nine_daily_count])))
       (WorkerGroup.set_number_of_workers 2 (default_group 1 [nine_daily_count]))
       (worker_threads
          (manage_event_schedules "09:00" 0 (started 1 [nine_daily_count]))).
Proof.
  apply (ScheduleExtras.resize_schedule_reconciles
           "09:00" 0 2 (default_group 1 [nine_daily_count])
           (started 1 [nine_daily_count])).
  - exact nine_not_empty.
  - vm_compute. reflexivity.
  - reflexivity.
  - apply CapacityRuns.derived_started.
Defined.

Lemma assign_task_first_witness :
  calls (assign_task 7 (started 2 []))
  = calls (started 2 []) ++ [Worker_add_work worker_0 7]
  /\ frame (started 2 []) (assign_task 7 (started 2 []))
  /\ forall K,
       Pool.get K (worker_threads (assign_task 7 (started 2 [])))
       = if "default-0" =? K
         then option_map (Worker.add_work 7)
                         (Pool.get K (worker_threads (started 2 [])))
         else Pool.get K (worker_threads (started 2 [])).
Proof.
  apply (DispatchExtras.assign_task_first 7 (started 2 []) "default-0" worker_0
           [] [("default-1", worker_1)]).
  - vm_compute. reflexivity.
  - constructor.
  - reflexivity.
Defined.

Lemma dispatch_one_witness :
  exists f' k w,
    acquire_idle_worker two_tasks = Continue f'
    /\ idle_workers f' = 0
    /\ Pending.items (pendingtasks f') = [8]
    /\ In (k, w) (worker_threads two_tasks)
    /\ Worker.can_accept_work w = true
    /\ calls f' = calls two_tasks ++ [Worker_add_work w 7]
    /\ exists w', Pool.get k (worker_threads f') = Some w'
                  /\ Worker.current_task w' = Some 7
                  /\ Worker.idle w' = false.
Proof.
  apply (DispatchExtras.dispatch_one two_tasks 0 7 [8]).
  - vm_compute. reflexivity.
  - reflexivity.
  - reflexivity.
  - vm_compute. reflexivity.
Defined.






(** The worker with id "-1" is found by its integer value. *)
Example unnamed_status :
  get_worker_status "-1" unnamed
  = Py.Ok (Some (Worker.make_status "-1" "-Worker-2" true false None)).
Proof. vm_compute. reflexivity. Qed.

Lemma sign_out_succeeds_witness :
  snd (sign_out_result 200 signed_in [installation_row]) = Py.Ok true
  /\ fst (fst (sign_out_result 200 signed_in [installation_row]))
     = Session.make "" "" "" (Some 200%Z) (Session.uuid signed_in)
                    (Session.session_cookies signed_in)
                    0%Z None None (Session.mkRequests (Some "") [])
  /\ (Py.truthy_opt_str (Session.uuid signed_in) = false ->
      snd (fst (sign_out_result 200 signed_in [installation_row]))
      = [installation_row])
  /\ (forall u r, Session.uuid signed_in = Some u -> u <> "" ->
                  Installation.get_or_none u [installation_row] = Some r ->
        In (Installation.make (Installation.id r) (Installation.uuid r) 0%Z "" "" ""
                              (Some 200%Z) None None
                              (Session.session_cookies signed_in))
           (snd (fst (sign_out_result 200 signed_in [installation_row])))
        /\ forall r0, In r0 [installation_row] ->
                      Installation.id r0 <> Installation.id r ->
                      In r0 (snd (fst (sign_out_result 200 signed_in
                                                       [installation_row])))).
Proof.
  apply (SessionExtras.sign_out_succeeds 200 signed_in [installation_row]).
  right. exists "u-1", installation_row.
  split; [reflexivity|]. split; [discriminate | reflexivity].
Defined.

Lemma sign_out_without_row_witness :
  snd (sign_out_result 200 signed_in []) = Py.Raise Py.AttributeError
  /\ snd (fst (sign_out_result 200 signed_in [])) = []
  /\ Session.requests_session (fst (fst (sign_out_result 200 signed_in [])))
     = Session.requests_session signed_in
  /\ Session.name (fst (fst (sign_out_result 200 signed_in []))) = ""
  /\ Session.level (fst (fst (sign_out_result 200 signed_in []))) = 0%Z.
Proof.
  apply (SessionExtras.sign_out_without_row 200 signed_in [] "u-1").
  - reflexivity.
  - discriminate.
  - reflexivity.
Defined.

End ExtraRuns.
